(** * Inventory service (main.js): the catalog document, the photo files
      and the request handlers

    The service keeps its whole catalog in one JSON document,
    [inventory.json], inside a cache directory that also holds the uploaded
    photo files.  Every handler reads the whole document, changes the array
    it obtained and writes the whole document back.

    The development follows the source from the leaves up:
    - JavaScript strings and [String.prototype.trim];
    - the item record and the text [JSON.stringify (items, null, 2)]
      produces for an array of items, with the reading [JSON.parse] makes
      of such a text;
    - the cache directory, [loadInventory], [saveInventory], [findItem];
    - the handlers of [POST /register], [PUT /inventory/:id],
      [DELETE /inventory/:id], [GET /inventory/:id/photo] and
      [PUT /inventory/:id/photo], each as a function from the directory
      before the request to the directory after it and the response;
    - the [POST /register] handler cut at its [await]s, to follow several
      requests in flight on the one event loop;
    - the read-only handlers of [GET /inventory], [GET /inventory/:id] and
      [POST /search], and the routes in the order of their registration,
      method guards and final 404 included.

    A JavaScript string is kept as the sequence of its code units; the model
    holds the code units below 256, one per [ascii]. *)

From Stdlib Require Import Ascii String NArith Lia.
From stdpp Require Import base option strings list gmap pretty.

Open Scope string_scope.
Open Scope list_scope.

(** ** JavaScript strings *)

(** The code units below 256 that [trim] removes: TAB, LF, VT, FF, CR, SPACE
    and NBSP. *)
Definition is_white_space (c : ascii) : bool :=
  let n := N_of_ascii c in
  ((9 <=? n) && (n <=? 13) || (n =? 32) || (n =? 160))%N.

Fixpoint trimStart (s : string) : string :=
  match s with
  | "" => ""
  | String c r => if is_white_space c then trimStart r else s
  end.

Fixpoint trimEnd (s : string) : string :=
  match s with
  | "" => ""
  | String c r =>
      match trimEnd r with
      | "" => if is_white_space c then "" else String c ""
      | r' => String c r'
      end
  end.

(** [s.trim()] *)
Definition trim (s : string) : string := trimEnd (trimStart s).

(** A string made of white space only (the empty string included). *)
Fixpoint blank (s : string) : bool :=
  match s with
  | "" => true
  | String c r => is_white_space c && blank r
  end.

(** ** Values of the request body

    A field of [req.body] as the handlers meet it: missing ([undefined]),
    the JSON [null], or a string.  Form fields are strings; a JSON body
    could also carry a number, a boolean, an array or an object, which the
    model leaves out: on such an [inventory_name] the handlers throw at
    [.trim()], and the statements below are to be read of requests whose
    fields are strings or missing. *)
Inductive jsval :=
  | JUndefined
  | JNull
  | JString (s : string).

(** JavaScript truthiness of such a value: [undefined], [null] and the empty
    string are falsy. *)
Definition truthy (v : jsval) : bool :=
  match v with
  | JString (String _ _) => true
  | _ => false
  end.

(** ** Items *)

Record Item := mkItem {
  id : string;
  inventory_name : string;
  description : option string;
  photoFilename : option string;
  photoUrl : option string
}.

(** The photo an item refers to: [item.photoFilename] when it is truthy,
    that is neither [null] nor the empty string. *)
Definition photo_of (it : Item) : option string :=
  match photoFilename it with
  | Some (String _ _ as name) => Some name
  | _ => None
  end.

(** ** The JSON text of a document *)

Module JSON.

Definition dquote : ascii := "034"%char.
Definition newline : ascii := "010"%char.

Definition hex_digit (n : N) : ascii :=
  if (n <? 10)%N then ascii_of_N (48 + n) else ascii_of_N (87 + n).

(** QuoteJSONString, one code unit at a time. *)
Definition quote_char (c : ascii) : string :=
  let n := N_of_ascii c in
  if (n =? 8)%N then "\b"
  else if (n =? 9)%N then "\t"
  else if (n =? 10)%N then "\n"
  else if (n =? 12)%N then "\f"
  else if (n =? 13)%N then "\r"
  else if (n =? 34)%N then String "\" (String dquote "")
  else if (n =? 92)%N then "\\"
  else if (n <? 32)%N then
    "\u00" +:+ String (hex_digit (n / 16)) (String (hex_digit (n mod 16)) "")
  else String c "".

Fixpoint quote_body (s : string) : string :=
  match s with
  | "" => ""
  | String c r => quote_char c +:+ quote_body r
  end.

Definition quote (s : string) : string :=
  String dquote (quote_body s +:+ String dquote "").

Definition value_text (v : option string) : string :=
  match v with
  | None => "null"
  | Some s => quote s
  end.

(** One property line of an object printed with a gap of two spaces, at
    nesting depth two. *)
Definition property_text (key : string) (v : option string) : string :=
  quote key +:+ ": " +:+ value_text v.

Definition property_sep : string := "," +:+ String newline "    ".

Definition item_text (it : Item) : string :=
  "{" +:+ String newline "    "
  +:+ property_text "id" (Some (id it)) +:+ property_sep
  +:+ property_text "inventory_name" (Some (inventory_name it)) +:+ property_sep
  +:+ property_text "description" (description it) +:+ property_sep
  +:+ property_text "photoFilename" (photoFilename it) +:+ property_sep
  +:+ property_text "photoUrl" (photoUrl it)
  +:+ String newline "  }".

Fixpoint elements_text (items : list Item) : string :=
  match items with
  | [] => ""
  | [it] => item_text it
  | it :: rest => item_text it +:+ "," +:+ String newline "  " +:+ elements_text rest
  end.

(** [JSON.stringify(items, null, 2)] *)
Definition stringify (items : list Item) : string :=
  match items with
  | [] => "[]"
  | _ => "[" +:+ String newline "  " +:+ elements_text items +:+ String newline "]"
  end.

(** *** Reading a text *)

Inductive token :=
  | LBracket | RBracket | LBrace | RBrace | Colon | Comma
  | Null
  | Str (s : string).

Definition is_json_space (c : ascii) : bool :=
  let n := N_of_ascii c in
  ((n =? 32) || (n =? 9) || (n =? 10) || (n =? 13))%N.

Definition hex_value (c : ascii) : option N :=
  let n := N_of_ascii c in
  if ((48 <=? n) && (n <=? 57))%N then Some (n - 48)%N
  else if ((97 <=? n) && (n <=? 102))%N then Some (n - 87)%N
  else if ((65 <=? n) && (n <=? 70))%N then Some (n - 55)%N
  else None.

(** The code unit of [\uXXXX], when it is below 256. *)
Definition hex4 (h1 h2 h3 h4 : ascii) : option ascii :=
  match hex_value h1, hex_value h2, hex_value h3, hex_value h4 with
  | Some a, Some b, Some c, Some d =>
      let n := (((a * 16 + b) * 16 + c) * 16 + d)%N in
      if (n <? 256)%N then Some (ascii_of_N n) else None
  | _, _, _, _ => None
  end.

Definition snoc (s : string) (c : ascii) : string := s +:+ String c "".

(** The tokens of a text.  [cur] is [None] between tokens and holds the
    code units read so far inside a string literal. *)
Fixpoint lex (cur : option string) (s : string) : option (list token) :=
  match cur, s with
  | None, "" => Some []
  | None, String c r =>
      if is_json_space c then lex None r
      else if Ascii.eqb c "[" then cons LBracket <$> lex None r
      else if Ascii.eqb c "]" then cons RBracket <$> lex None r
      else if Ascii.eqb c "{" then cons LBrace <$> lex None r
      else if Ascii.eqb c "}" then cons RBrace <$> lex None r
      else if Ascii.eqb c ":" then cons Colon <$> lex None r
      else if Ascii.eqb c "," then cons Comma <$> lex None r
      else if Ascii.eqb c dquote then lex (Some "") r
      else if Ascii.eqb c "n" then
        match r with
        | String "u" (String "l" (String "l" r')) => cons Null <$> lex None r'
        | _ => None
        end
      else None
  | Some _, "" => None
  | Some acc, String c r =>
      if Ascii.eqb c dquote then cons (Str acc) <$> lex None r
      else if Ascii.eqb c "\" then
        match r with
        | String e r' =>
            if Ascii.eqb e dquote then lex (Some (snoc acc dquote)) r'
            else if Ascii.eqb e "\" then lex (Some (snoc acc "\")) r'
            else if Ascii.eqb e "/" then lex (Some (snoc acc "/")) r'
            else if Ascii.eqb e "b" then lex (Some (snoc acc "008")) r'
            else if Ascii.eqb e "f" then lex (Some (snoc acc "012")) r'
            else if Ascii.eqb e "n" then lex (Some (snoc acc "010")) r'
            else if Ascii.eqb e "r" then lex (Some (snoc acc "013")) r'
            else if Ascii.eqb e "t" then lex (Some (snoc acc "009")) r'
            else if Ascii.eqb e "u" then
              match r' with
              | String h1 (String h2 (String h3 (String h4 r''))) =>
                  match hex4 h1 h2 h3 h4 with
                  | Some c' => lex (Some (snoc acc c')) r''
                  | None => None
                  end
              | _ => None
              end
            else None
        | "" => None
        end
      else if (N_of_ascii c <? 32)%N then None
      else lex (Some (snoc acc c)) r
  end.

(** The members of an object, in the order of the text. *)
Definition member : Type := string * option string.

Definition value_of (t : token) : option (option string) :=
  match t with
  | Null => Some None
  | Str s => Some (Some s)
  | _ => None
  end.

(** Property lookup in the object a member list builds: of two members
    with one key the later one stays. *)
Fixpoint get (key : string) (ms : list member) : option (option string) :=
  match ms with
  | [] => None
  | (k, v) :: rest =>
      match get key rest with
      | Some x => Some x
      | None => if decide (k = key) then Some v else None
      end
  end.

Definition item_keys : list string :=
  ["id"; "inventory_name"; "description"; "photoFilename"; "photoUrl"].

Definition item_of_members (ms : list member) : option Item :=
  if forallb (λ kv, bool_decide (kv.1 ∈ item_keys)) ms then
    match get "id" ms, get "inventory_name" ms, get "description" ms,
          get "photoFilename" ms, get "photoUrl" ms with
    | Some (Some i), Some (Some n), Some d, Some f, Some u => Some (mkItem i n d f u)
    | _, _, _, _, _ => None
    end
  else None.

(** The objects of an array, read from just behind an opening brace:
    [acc] holds the finished items, [cur] the members of the object being
    read. *)
Fixpoint parse_objects (acc : list Item) (cur : list member) (ts : list token)
    : option (list Item) :=
  match ts with
  | Str k :: Colon :: t :: ts1 =>
      match value_of t with
      | None => None
      | Some v =>
          let cur' := cur ++ [(k, v)] in
          match ts1 with
          | Comma :: ts2 => parse_objects acc cur' ts2
          | RBrace :: ts2 =>
              match item_of_members cur' with
              | None => None
              | Some it =>
                  match ts2 with
                  | [RBracket] => Some (acc ++ [it])
                  | Comma :: LBrace :: ts3 => parse_objects (acc ++ [it]) [] ts3
                  | _ => None
                  end
              end
          | _ => None
          end
      end
  | _ => None
  end.

Definition parse_tokens (ts : list token) : option (list Item) :=
  match ts with
  | [LBracket; RBracket] => Some []
  | LBracket :: LBrace :: ts' => parse_objects [] [] ts'
  | _ => None
  end.

(** [JSON.parse(data)] on the texts the model reads, the arrays of item
    objects.  On a text that is not JSON, [None] stands for the exception
    [JSON.parse] throws.  A text that is JSON of another shape (an object,
    [null], an array of numbers, an item with a numeric field) is outside
    the model and read as [None] too, although [JSON.parse] returns a value
    for it; the service never writes one.  Whatever is read here is a JSON
    text ([JSONGrammar.text]), and what is said below of a document that
    cannot be parsed is said of the texts that are not JSON. *)
Definition parse (data : string) : option (list Item) :=
  lex None data ≫= parse_tokens.

(** *** The tokens and members of a printed array *)

Definition value_token (v : option string) : token :=
  match v with
  | None => Null
  | Some s => Str s
  end.

(** The tokens of an item behind its opening brace. *)
Definition body_tokens (it : Item) : list token :=
  [ Str "id"; Colon; Str (id it); Comma;
    Str "inventory_name"; Colon; Str (inventory_name it); Comma;
    Str "description"; Colon; value_token (description it); Comma;
    Str "photoFilename"; Colon; value_token (photoFilename it); Comma;
    Str "photoUrl"; Colon; value_token (photoUrl it); RBrace ].

(** The tokens of a non-empty array behind its first opening brace, up to
    the closing bracket, followed by [ts]. *)
Fixpoint elements_tokens' (it : Item) (rest : list Item) (ts : list token) : list token :=
  match rest with
  | [] => (body_tokens it ++ ts)
  | it' :: rest' => (body_tokens it ++ Comma :: LBrace :: elements_tokens' it' rest' ts)
  end.

(** The members of a printed item. *)
Definition members (it : Item) : list member :=
  [ ("id", Some (id it)); ("inventory_name", Some (inventory_name it));
    ("description", description it); ("photoFilename", photoFilename it);
    ("photoUrl", photoUrl it) ].

End JSON.

(** ** The cache directory

    [inventory_json] is the text of [INVENTORY_FILE], [None] while there is
    no such file; [files] are the other files of [CACHE_DIR], the photos, by
    name.  The names multer gives start with a digit, so no photo is ever
    stored under the name of the document. *)
Record CacheDir := mkCacheDir {
  inventory_json : option string;
  files : gmap string string
}.

(** [loadInventory]: whatever [readFile] or [JSON.parse] throws is caught
    and answered with the empty array.  On a document that is JSON of
    another shape than an array of items the source returns the parsed
    value, which the model does not have: the statements below are to be
    read of directories whose document, where it is JSON, is an array of
    items, as every document the service has written is. *)
Definition loadInventory (d : CacheDir) : list Item :=
  match inventory_json d with
  | None => []
  | Some data =>
      match JSON.parse data with
      | Some items => items
      | None => []
      end
  end.

(** [saveInventory]: one [writeFile] over [INVENTORY_FILE]. *)
Definition saveInventory (items : list Item) (d : CacheDir) : CacheDir :=
  mkCacheDir (Some (JSON.stringify items)) (files d).

(** The first [n] code units of a text. *)
Fixpoint prefix_text (n : nat) (s : string) : string :=
  match n, s with
  | S n', String c r => String c (prefix_text n' r)
  | _, _ => ""
  end.

(** [fsp.writeFile] opens the file with flag [w], which creates it or cuts
    it to length zero, and then writes the data from the front.  These are
    the texts the file holds on the way, the last one being the whole
    data. *)
Definition writeFile_texts (data : string) : list string :=
  (λ n, prefix_text n data) <$> seq 0 (S (String.length data)).

(** The directories a crash in the middle of [saveInventory] can leave. *)
Definition saveInventory_states (items : list Item) (d : CacheDir) : list CacheDir :=
  (λ text, mkCacheDir (Some text) (files d)) <$> writeFile_texts (JSON.stringify items).

(** [items.find(item => item.id === id)] and
    [items.findIndex(it => it.id === id)]: the first item with that id.  A
    handler changes the object [find] gave it, and that object is the one
    in the array; the model therefore keeps the index with the item. *)
Definition findItem (items : list Item) (i : string) : option (nat * Item) :=
  list_find (λ it, id it = i) items.

(** [if (fs.existsSync(p)) await fsp.unlink(p)] *)
Definition unlink_if_exists (name : string) (d : CacheDir) : CacheDir :=
  mkCacheDir (inventory_json d) (delete name (files d)).

(** [await fsp.unlink(p)], which rejects when there is no such file. *)
Definition unlink (name : string) (d : CacheDir) : option CacheDir :=
  match files d !! name with
  | Some _ => Some (mkCacheDir (inventory_json d) (delete name (files d)))
  | None => None
  end.

(** ** Uploads (multer) *)

(** The [photo] part of a multipart body: the extension of its original
    name, as [path.extname] gives it, and its bytes. *)
Record Upload := mkUpload {
  extname : string;
  bytes : string
}.

(** [req.file]; its [path] is [filename] inside [CACHE_DIR]. *)
Record File := mkFile {
  filename : string
}.

(** The [filename] callback of the disk storage, at clock reading [now] and
    with [rnd] for [Math.round(Math.random() * 1e9)]. *)
Definition storage_filename (now rnd : N) (ext : string) : string :=
  let unique := pretty now +:+ "-" +:+ pretty rnd in
  let ext := match ext with "" => ".jpg" | _ => ext end in
  unique +:+ ext.

(** [upload.single("photo")]: the file is written before the handler
    runs. *)
Definition upload_single (now rnd : N) (u : option Upload) (d : CacheDir)
    : CacheDir * option File :=
  match u with
  | None => (d, None)
  | Some u =>
      let name := storage_filename now rnd (extname u) in
      (mkCacheDir (inventory_json d) (<[name := bytes u]> (files d)), Some (mkFile name))
  end.

(** ** Responses *)

Inductive Body :=
  | ItemJson (it : Item)
  | ErrorJson (error : string)
  | DeletedJson (message : string) (i : string)
  | FileBody (contentType : string) (content : string).

Record Response := mkResponse {
  status : nat;
  body : Body
}.

(** What an [async] handler ends with: a response, or a rejected promise. *)
Inductive Outcome :=
  | Responded (r : Response)
  | Rejected (code : string).

(** [`/inventory/${id}/photo`] *)
Definition photo_url (i : string) : string := "/inventory/" +:+ i +:+ "/photo".

(** ** POST /register *)

(** [description || ""] *)
Definition description_or_empty (v : jsval) : string :=
  match v with
  | JString s => s
  | _ => ""
  end.

(** The handler behind multer, run without interruption; [now] is the
    reading of [Date.now()], a count of milliseconds, which [String] prints
    with all its decimal digits. *)
Definition register (name descr : jsval) (file : option File) (now : N) (d : CacheDir)
    : CacheDir * Response :=
  match name with
  | JString s =>
      if negb (truthy name) || bool_decide (trim s = "") then
        (d, mkResponse 400 (ErrorJson "inventory_name is required"))
      else
        let items := loadInventory d in
        let newId := pretty now in
        let newItem :=
          mkItem newId s (Some (description_or_empty descr))
                 (filename <$> file)
                 (match file with Some _ => Some (photo_url newId) | None => None end) in
        let items := (items ++ [newItem]) in
        (saveInventory items d, mkResponse 201 (ItemJson newItem))
  | _ => (d, mkResponse 400 (ErrorJson "inventory_name is required"))
  end.

(** The whole route: multer, then the handler. *)
Definition post_register (name descr : jsval) (u : option Upload)
    (upload_time rnd now : N) (d : CacheDir) : CacheDir * Response :=
  let '(d1, file) := upload_single upload_time rnd u d in
  register name descr file now d1.

(** ** PUT /inventory/:id *)

(** [inventory_name?.trim()] is truthy *)
Definition name_given (name : jsval) : option string :=
  match name with
  | JString s => if bool_decide (trim s = "") then None else Some s
  | _ => None
  end.

Definition update (i : string) (name descr : jsval) (d : CacheDir) : CacheDir * Response :=
  let items := loadInventory d in
  match findItem items i with
  | None => (d, mkResponse 404 (ErrorJson "Item not found"))
  | Some (k, item) =>
      let item :=
        match name_given name with
        | Some s => mkItem (id item) s (description item) (photoFilename item) (photoUrl item)
        | None => item
        end in
      let item :=
        match descr with
        | JUndefined => item
        | JNull => mkItem (id item) (inventory_name item) None (photoFilename item) (photoUrl item)
        | JString s =>
            mkItem (id item) (inventory_name item) (Some s) (photoFilename item) (photoUrl item)
        end in
      (saveInventory (<[k := item]> items) d, mkResponse 200 (ItemJson item))
  end.

(** ** DELETE /inventory/:id *)

Definition delete_item (i : string) (d : CacheDir) : CacheDir * Response :=
  let items := loadInventory d in
  match findItem items i with
  | None => (d, mkResponse 404 (ErrorJson "Item not found"))
  | Some (index, deleted) =>
      let items := delete index items in
      let d :=
        match photo_of deleted with
        | Some name => unlink_if_exists name d
        | None => d
        end in
      (saveInventory items d, mkResponse 200 (DeletedJson "Deleted" i))
  end.

(** ** GET /inventory/:id/photo *)

Definition get_photo (i : string) (d : CacheDir) : Response :=
  let items := loadInventory d in
  match findItem items i ≫= (λ found, photo_of found.2) with
  | None => mkResponse 404 (ErrorJson "Photo not found")
  | Some name =>
      match files d !! name with
      | None => mkResponse 404 (ErrorJson "Photo file not found")
      | Some content => mkResponse 200 (FileBody "image/jpeg" content)
      end
  end.

(** ** PUT /inventory/:id/photo *)

(** The handler behind multer. *)
Definition put_photo (i : string) (file : option File) (d : CacheDir) : CacheDir * Outcome :=
  let items := loadInventory d in
  match findItem items i with
  | None =>
      match file with
      | Some f =>
          match unlink (filename f) d with
          | Some d' => (d', Responded (mkResponse 404 (ErrorJson "Item not found")))
          | None => (d, Rejected "ENOENT")
          end
      | None => (d, Responded (mkResponse 404 (ErrorJson "Item not found")))
      end
  | Some (k, item) =>
      let d :=
        match photo_of item with
        | Some name => unlink_if_exists name d
        | None => d
        end in
      let item :=
        match file with
        | Some f =>
            mkItem (id item) (inventory_name item) (description item)
                   (Some (filename f)) (Some (photo_url i))
        | None => item
        end in
      (saveInventory (<[k := item]> items) d, Responded (mkResponse 200 (ItemJson item)))
  end.

(** The whole route: multer, then the handler. *)
Definition put_inventory_photo (i : string) (u : option Upload) (upload_time rnd : N)
    (d : CacheDir) : CacheDir * Outcome :=
  let '(d1, file) := upload_single upload_time rnd u d in
  put_photo i file d1.

(** ** Requests in flight

    The [POST /register] handler gives the event loop back at
    [await loadInventory()] and at [await saveInventory(items)]; between
    those points it runs without interruption.  A task is a handler stopped
    at one of them.  The read of the document and the write of the document
    are each taken as one step. *)
Inductive RegisterTask :=
  | Received (name descr : jsval) (file : option File)
  | Loaded (name : string) (descr : jsval) (file : option File) (items : list Item)
  | Saving (newItem : Item) (items : list Item)
  | Finished (r : Response).

(** One uninterrupted stretch of a task; [now] is the clock while it runs.
    - [Received]: the name is checked and the document read;
    - [Loaded]: the array is back, the item is built and pushed and the
      write is asked for;
    - [Saving]: the write lands and the response goes out. *)
Definition step_task (now : N) (t : RegisterTask) (d : CacheDir) : CacheDir * RegisterTask :=
  match t with
  | Received name descr file =>
      match name with
      | JString s =>
          if negb (truthy name) || bool_decide (trim s = "") then
            (d, Finished (mkResponse 400 (ErrorJson "inventory_name is required")))
          else (d, Loaded s descr file (loadInventory d))
      | _ => (d, Finished (mkResponse 400 (ErrorJson "inventory_name is required")))
      end
  | Loaded s descr file items =>
      let newId := pretty now in
      let newItem :=
        mkItem newId s (Some (description_or_empty descr))
               (filename <$> file)
               (match file with Some _ => Some (photo_url newId) | None => None end) in
      (d, Saving newItem (items ++ [newItem]))
  | Saving newItem items =>
      (saveInventory items d, Finished (mkResponse 201 (ItemJson newItem)))
  | Finished r => (d, Finished r)
  end.

(** The directory and the tasks of the requests being served. *)
Definition System : Type := CacheDir * list RegisterTask.

(** The event loop runs the next stretch of task [k]. *)
Definition run_task (k : nat) (now : N) (s : System) : System :=
  match s.2 !! k with
  | None => s
  | Some t =>
      let '(d', t') := step_task now t s.1 in
      (d', <[k := t']> s.2)
  end.

(** A schedule names, stretch after stretch, the task that runs and the
    clock reading at that moment. *)
Definition run (schedule : list (nat * N)) (s : System) : System :=
  foldl (λ s '(k, now), run_task k now s) s schedule.

(** The schedule that serves the requests one after the other: the three
    stretches of the first task at the first clock reading, then those of
    the second, and so on; [k] is the index of the first task. *)
Fixpoint serial (k : nat) (times : list N) : list (nat * N) :=
  match times with
  | [] => []
  | now :: rest => (k, now) :: (k, now) :: (k, now) :: serial (S k) rest
  end.

(** A registration whose name passes the check: the string of the name, the
    description field and [req.file]. *)
Record Registration := mkRegistration {
  reg_name : string;
  reg_description : jsval;
  reg_file : option File
}.

(** Its task, as the request arrives. *)
Definition received (r : Registration) : RegisterTask :=
  Received (JString (reg_name r)) (reg_description r) (reg_file r).

(** The item the handler builds for it at clock reading [now]. *)
Definition new_item (r : Registration) (now : N) : Item :=
  mkItem (pretty now) (reg_name r) (Some (description_or_empty (reg_description r)))
         (filename <$> reg_file r)
         (match reg_file r with Some _ => Some (photo_url (pretty now)) | None => None end).

(** ** Properties of a directory *)

(** Every non-null [photoFilename] of the persisted collection names a file
    of the cache directory. *)
Definition references_resolve (d : CacheDir) : Prop :=
  ∀ it name, it ∈ loadInventory d → photoFilename it = Some name →
    is_Some (files d !! name).

(** No two items of the persisted collection refer to one photo. *)
Definition photos_unshared (d : CacheDir) : Prop :=
  ∀ j1 j2 it1 it2 name,
    loadInventory d !! j1 = Some it1 → loadInventory d !! j2 = Some it2 →
    photoFilename it1 = Some name → photoFilename it2 = Some name → j1 = j2.

(** No two items of the persisted collection share an id. *)
Definition ids_distinct (d : CacheDir) : Prop :=
  NoDup (id <$> loadInventory d).

(** The name is missing for [POST /register], in the words of its
    contract: absent, empty or blank. *)
Definition absent_or_blank (name : jsval) : bool :=
  match name with
  | JUndefined | JNull => true
  | JString s => blank s
  end.

(** ** GET /inventory *)

(** An entry of the listing: the item without its [photoFilename]. *)
Record PublicItem := mkPublicItem {
  public_id : string;
  public_inventory_name : string;
  public_description : option string;
  public_photoUrl : option string
}.

Definition public (item : Item) : PublicItem :=
  mkPublicItem (id item) (inventory_name item) (description item) (photoUrl item).

Definition list_inventory (d : CacheDir) : list PublicItem :=
  let items := loadInventory d in
  public <$> items.

(** ** GET /inventory/:id *)

Definition get_item (i : string) (d : CacheDir) : Response :=
  let items := loadInventory d in
  match findItem items i with
  | None => mkResponse 404 (ErrorJson "Item not found")
  | Some (_, item) => mkResponse 200 (ItemJson item)
  end.

(** ** POST /search *)

(** The link added to the description:
    [`<br><a href="${item.photoUrl}">Photo link</a>`]. *)
Definition photo_link (url : string) : string :=
  "<br><a href=" +:+ String JSON.dquote url +:+ String JSON.dquote ">Photo link</a>".

(** The page of the result, with [description] already extended. *)
Definition search_page (item : Item) (description : string) : string :=
  String JSON.newline "    <h1>Search result</h1>"
  +:+ String JSON.newline "    <p><strong>ID:</strong> " +:+ id item +:+ "</p>"
  +:+ String JSON.newline "    <p><strong>Name:</strong> " +:+ inventory_name item +:+ "</p>"
  +:+ String JSON.newline "    <p><strong>Description:</strong> " +:+ description +:+ "</p>"
  +:+ String JSON.newline "  ".

(** The answer of [res.status(n).send(text)]. *)
Record Page := mkPage {
  page_status : nat;
  page_text : string
}.

(** [i] is [req.body.id] and [has_photo] the truthiness of
    [req.body.has_photo].  An id that is not a string is [===] to no stored
    id. *)
Definition search (i : jsval) (has_photo : bool) (d : CacheDir) : Page :=
  let items := loadInventory d in
  let item :=
    match i with
    | JString s => findItem items s
    | _ => None
    end in
  match item with
  | None => mkPage 404 "Item not found"
  | Some (_, item) =>
      let description := match description item with Some s => s | None => "" end in
      let description :=
        match photoUrl item with
        | Some (String _ _ as url) =>
            if has_photo then description +:+ photo_link url else description
        | _ => description
        end in
      mkPage 200 (search_page item description)
  end.

(** ** The application: routes in the order of their registration

    A request carries its method, its path as the routes see it, the fields
    of its parsed body and, for a multipart body, the photo part; the clock
    readings and the random draw its handling will meet ride along. *)

Inductive Method := GET | HEAD | POST | PUT | DELETE | PATCH | OPTIONS.

Global Instance Method_eq_dec : EqDecision Method.
Proof. solve_decision. Defined.

Inductive Path :=
  | RegisterPath                      (* /register *)
  | InventoryPath                     (* /inventory *)
  | ItemPath (i : string)             (* /inventory/:id *)
  | ItemPhotoPath (i : string)        (* /inventory/:id/photo *)
  | SearchPath                        (* /search *)
  | Elsewhere.                        (* any other path, the two HTML forms
                                         and /docs apart *)

Record Request := mkRequest {
  method : Method;
  path : Path;
  body_inventory_name : jsval;
  body_description : jsval;
  body_id : jsval;
  body_has_photo : bool;
  photo : option Upload;
  clock_at_upload : N;
  random_draw : N;
  clock_at_handler : N
}.

(** What goes back to the client; for [HEAD] it goes without its body. *)
Inductive Reply :=
  | Json (o : Outcome)
  | Listing (entries : list PublicItem)
  | Html (p : Page).

(** The methods a route is registered for. *)
Inductive Verb := OnGet | OnPost | OnPut | OnDelete | OnAll.

(** [route._handles_method]: a [HEAD] request is served by the [get]
    handler. *)
Definition handles (v : Verb) (m : Method) : bool :=
  match v, m with
  | OnAll, _ => true
  | OnGet, (GET | HEAD) => true
  | OnPost, POST => true
  | OnPut, PUT => true
  | OnDelete, DELETE => true
  | _, _ => false
  end.

(** The path patterns of the routes, and [app.use] without a path. *)
Inductive Pattern :=
  | AtRegister | AtInventory | AtItem | AtItemPhoto | AtSearch | Anywhere.

Definition matches (pat : Pattern) (p : Path) : bool :=
  match pat, p with
  | Anywhere, _ => true
  | AtRegister, RegisterPath => true
  | AtInventory, InventoryPath => true
  | AtItem, ItemPath _ => true
  | AtItemPhoto, ItemPhotoPath _ => true
  | AtSearch, SearchPath => true
  | _, _ => false
  end.

(** [req.params.id] *)
Definition params_id (p : Path) : string :=
  match p with
  | ItemPath i | ItemPhotoPath i => i
  | _ => ""
  end.

(** A handler answers, or hands the request on with [next()] ([None]). *)
Definition Handler : Type := Request → CacheDir → CacheDir * option Reply.

Record Layer := mkLayer {
  verb : Verb;
  pattern : Pattern;
  handler : Handler
}.

(** The guards registered with [app.all]: the methods on the list go on to
    the next layer, every other is answered 405. *)
Definition only (allowed : list Method) : Handler :=
  λ req d,
    if bool_decide (method req ∈ allowed) then (d, None)
    else (d, Some (Json (Responded (mkResponse 405 (ErrorJson "Method not allowed"))))).

(** The routes of [main.js] from [POST /register] on, in source order, with
    the final [app.use]. *)
Definition routes : list Layer :=
  [ mkLayer OnPost AtRegister (λ req d,
      let '(d', r) := post_register (body_inventory_name req) (body_description req)
                        (photo req) (clock_at_upload req) (random_draw req)
                        (clock_at_handler req) d in
      (d', Some (Json (Responded r))));
    mkLayer OnAll AtRegister (only [POST]);
    mkLayer OnGet AtInventory (λ req d, (d, Some (Listing (list_inventory d))));
    mkLayer OnAll AtInventory (only [GET; OPTIONS]);
    mkLayer OnGet AtItem (λ req d,
      (d, Some (Json (Responded (get_item (params_id (path req)) d)))));
    mkLayer OnPut AtItem (λ req d,
      let '(d', r) := update (params_id (path req)) (body_inventory_name req)
                        (body_description req) d in
      (d', Some (Json (Responded r))));
    mkLayer OnDelete AtItem (λ req d,
      let '(d', r) := delete_item (params_id (path req)) d in
      (d', Some (Json (Responded r))));
    mkLayer OnAll AtItem (only [GET; PUT; DELETE]);
    mkLayer OnGet AtItemPhoto (λ req d,
      (d, Some (Json (Responded (get_photo (params_id (path req)) d)))));
    mkLayer OnPut AtItemPhoto (λ req d,
      let '(d', o) := put_inventory_photo (params_id (path req)) (photo req)
                        (clock_at_upload req) (random_draw req) d in
      (d', Some (Json o)));
    mkLayer OnAll AtItemPhoto (only [GET; PUT]);
    mkLayer OnPost AtSearch (λ req d,
      (d, Some (Html (search (body_id req) (body_has_photo req) d))));
    mkLayer OnAll AtSearch (only [POST]);
    mkLayer OnAll Anywhere (λ req d,
      (d, Some (Json (Responded (mkResponse 404 (ErrorJson "Not found")))))) ].

(** The router: the layers are tried in order; one that matches the path and
    handles the method runs, and the request goes on to the layers behind
    it only when the handler says [next()].  [None] at the end: no layer
    answered. *)
Fixpoint dispatch (stack : list Layer) (req : Request) (d : CacheDir)
    : CacheDir * option Reply :=
  match stack with
  | [] => (d, None)
  | layer :: rest =>
      if matches (pattern layer) (path req) && handles (verb layer) (method req) then
        match handler layer req d with
        | (d', Some reply) => (d', Some reply)
        | (d', None) => dispatch rest req d'
        end
      else dispatch rest req d
  end.

(** [app], the application handed to [http.createServer]. *)
Definition express_app (req : Request) (d : CacheDir) : CacheDir * option Reply :=
  dispatch routes req d.

(** ** More properties of a directory *)

(** The item [PUT /inventory/:id] puts in the place of [item]. *)
Definition updated (name descr : jsval) (item : Item) : Item :=
  mkItem (id item)
         (match name with
          | JString s => if blank s then inventory_name item else s
          | _ => inventory_name item
          end)
         (match descr with
          | JUndefined => description item
          | JNull => None
          | JString s => Some s
          end)
         (photoFilename item) (photoUrl item).

(** A decimal digit. *)
Definition is_digit (c : ascii) : bool :=
  let n := N_of_ascii c in ((48 <=? n) && (n <=? 57))%N.

Fixpoint all_digits (s : string) : bool :=
  match s with
  | "" => true
  | String c r => is_digit c && all_digits r
  end.

(** The methods that get past the guard of a path or are taken by a route
    before it; elsewhere there is no guard. *)
Definition passes (p : Path) : list Method :=
  match p with
  | RegisterPath => [POST]
  | InventoryPath => [GET; HEAD; OPTIONS]
  | ItemPath _ => [GET; HEAD; PUT; DELETE]
  | ItemPhotoPath _ => [GET; HEAD; PUT]
  | SearchPath => [POST]
  | Elsewhere => [GET; HEAD; POST; PUT; DELETE; PATCH; OPTIONS]
  end.

(** The document is absent or holds a collection. *)
Definition document_readable (d : CacheDir) : Prop :=
  match inventory_json d with
  | None => True
  | Some data => is_Some (JSON.parse data)
  end.

(** The requests that may write: the four routes with a handler that
    saves. *)
Definition writes (req : Request) : bool :=
  match method req, path req with
  | POST, RegisterPath => true
  | (PUT | DELETE), ItemPath _ => true
  | PUT, ItemPhotoPath _ => true
  | _, _ => false
  end.

(** ** JSON texts

    The grammar of JSON (ECMA-404) over the code units of the model: the
    texts on which [JSON.parse] does not throw. *)
Module JSONGrammar.

(** Zero or more of space, tab, line feed and carriage return. *)
Fixpoint ws (s : string) : bool :=
  match s with
  | "" => true
  | String c r => JSON.is_json_space c && ws r
  end.

Definition is_hex (c : ascii) : bool :=
  match JSON.hex_value c with
  | Some _ => true
  | None => false
  end.

(** The letter behind a backslash, [u] apart. *)
Definition simple_escape (e : ascii) : bool :=
  Ascii.eqb e JSON.dquote || Ascii.eqb e "\" || Ascii.eqb e "/" || Ascii.eqb e "b"
  || Ascii.eqb e "f" || Ascii.eqb e "n" || Ascii.eqb e "r" || Ascii.eqb e "t".

(** The inside of a string literal: code units from 32 on other than the
    quote and the backslash, and escapes. *)
Fixpoint characters (s : string) : bool :=
  match s with
  | "" => true
  | String c r =>
      if Ascii.eqb c "\" then
        match r with
        | String e r' =>
            if simple_escape e then characters r'
            else if Ascii.eqb e "u" then
              match r' with
              | String h1 (String h2 (String h3 (String h4 r''))) =>
                  is_hex h1 && is_hex h2 && is_hex h3 && is_hex h4 && characters r''
              | _ => false
              end
            else false
        | "" => false
        end
      else if Ascii.eqb c JSON.dquote then false
      else if (N_of_ascii c <? 32)%N then false
      else characters r
  end.

Definition string_literal (s : string) : Prop :=
  ∃ body, characters body = true ∧ s = String JSON.dquote (body +:+ String JSON.dquote "").

(** One or more decimal digits. *)
Definition digits (s : string) : Prop := s ≠ "" ∧ all_digits s = true.

(** An optional minus and digits without a leading zero. *)
Definition integer (s : string) : Prop :=
  ∃ sign ds,
    (sign = "" ∨ sign = "-") ∧ digits ds ∧ (∀ r, ds = String "0" r → r = "")
    ∧ s = sign +:+ ds.

Definition fraction (s : string) : Prop :=
  s = "" ∨ ∃ ds, digits ds ∧ s = "." +:+ ds.

Definition exponent (s : string) : Prop :=
  s = "" ∨ ∃ e sign ds,
    (e = "e" ∨ e = "E") ∧ (sign = "" ∨ sign = "+" ∨ sign = "-") ∧ digits ds
    ∧ s = e +:+ sign +:+ ds.

Definition number (s : string) : Prop :=
  ∃ i f e, integer i ∧ fraction f ∧ exponent e ∧ s = i +:+ f +:+ e.

(** Values, the elements of an array and the members of an object; an
    element is a value between white space, a member a string literal
    between white space, a colon and an element. *)
Inductive value : string → Prop :=
  | value_null : value "null"
  | value_true : value "true"
  | value_false : value "false"
  | value_number n : number n → value n
  | value_string s : string_literal s → value s
  | value_array_empty w : ws w = true → value ("[" +:+ w +:+ "]")
  | value_array es : elements es → value ("[" +:+ es +:+ "]")
  | value_object_empty w : ws w = true → value ("{" +:+ w +:+ "}")
  | value_object ms : members ms → value ("{" +:+ ms +:+ "}")
with elements : string → Prop :=
  | elements_one w1 v w2 :
      ws w1 = true → value v → ws w2 = true → elements (w1 +:+ v +:+ w2)
  | elements_more w1 v w2 es :
      ws w1 = true → value v → ws w2 = true → elements es →
      elements (w1 +:+ v +:+ w2 +:+ "," +:+ es)
with members : string → Prop :=
  | members_one w1 k w2 w3 v w4 :
      ws w1 = true → string_literal k → ws w2 = true →
      ws w3 = true → value v → ws w4 = true →
      members (w1 +:+ k +:+ w2 +:+ ":" +:+ w3 +:+ v +:+ w4)
  | members_more w1 k w2 w3 v w4 ms :
      ws w1 = true → string_literal k → ws w2 = true →
      ws w3 = true → value v → ws w4 = true → members ms →
      members (w1 +:+ k +:+ w2 +:+ ":" +:+ w3 +:+ v +:+ w4 +:+ "," +:+ ms).

(** A JSON text: one value between white space. *)
Definition text (s : string) : Prop :=
  ∃ w1 v w2, ws w1 = true ∧ value v ∧ ws w2 = true ∧ s = w1 +:+ v +:+ w2.

(** The texts a token of the lexer can come from. *)
Definition token_text (t : JSON.token) (s : string) : Prop :=
  match t with
  | JSON.LBracket => s = "["
  | JSON.RBracket => s = "]"
  | JSON.LBrace => s = "{"
  | JSON.RBrace => s = "}"
  | JSON.Colon => s = ":"
  | JSON.Comma => s = ","
  | JSON.Null => s = "null"
  | JSON.Str _ => string_literal s
  end.

(** What may follow the closing brace of an object inside an array, up to
    the end of the text: more elements behind a comma, or nothing, then the
    closing bracket and white space. *)
Definition closes (tail : string) : Prop :=
  ∃ rest w',
    ws w' = true ∧ tail = rest +:+ "]" +:+ w'
    ∧ (ws rest = true
       ∨ ∃ w es, ws w = true ∧ elements es ∧ rest = w +:+ "," +:+ es).

(** The last code unit of a text that is not white space. *)
Fixpoint last_solid (s : string) : option ascii :=
  match s with
  | "" => None
  | String c r =>
      match last_solid r with
      | Some x => Some x
      | None => if JSON.is_json_space c then None else Some c
      end
  end.

(** The code units a value can end with: the last letter of [null], [true]
    and [false], a digit, the quote, the bracket and the brace. *)
Definition closer (c : ascii) : bool :=
  is_digit c || Ascii.eqb c "l" || Ascii.eqb c "e" || Ascii.eqb c JSON.dquote
  || Ascii.eqb c "]" || Ascii.eqb c "}".

End JSONGrammar.

(** ** A small shelf

    Two items, the second with a photo, and the directory that holds
    them. *)
Module Shelf.
Definition hammer : Item :=
  mkItem "1700000000000" "Hammer" (Some "claw hammer") None None.

Definition drill : Item :=
  mkItem "1700000000001" "Drill" (Some "")
         (Some "1700000000001-42.jpg") (Some "/inventory/1700000000001/photo").

Definition dir : CacheDir :=
  mkCacheDir (Some (JSON.stringify [hammer; drill]))
             {[ "1700000000001-42.jpg" := "JPEG" ]}.

(** The same directory before anything was registered. *)
Definition fresh : CacheDir := mkCacheDir None ∅.

(** The directory after its document was cut short. *)
Definition cut : CacheDir :=
  mkCacheDir (Some (prefix_text 40 (JSON.stringify [hammer; drill])))
             {[ "1700000000001-42.jpg" := "JPEG" ]}.
End Shelf.

(** * Proofs *)

(** ** Strings *)

#[local] Arguments String.append !_ _ / : simpl nomatch.

Lemma string_app_nil_r (s : string) : s +:+ "" = s.
Proof. induction s as [|c s IH]; simpl; congruence. Qed.

Lemma string_app_assoc (s1 s2 s3 : string) : (s1 +:+ s2) +:+ s3 = s1 +:+ (s2 +:+ s3).
Proof. induction s1 as [|c s1 IH]; simpl; congruence. Qed.

Lemma trimStart_blank (s : string) : trimStart s = "" ↔ blank s = true.
Proof.
  induction s as [|c s IH]; simpl; [done |].
  destruct (is_white_space c); simpl; [done |].
  split; discriminate.
Qed.

Lemma trimStart_head (s : string) :
  trimStart s = "" ∨ ∃ c r, trimStart s = String c r ∧ is_white_space c = false.
Proof.
  induction s as [|c s IH]; simpl; [by left |].
  destruct (is_white_space c) eqn:Hc; [done |].
  right. by exists c, s.
Qed.

Lemma trimEnd_head (c : ascii) (r : string) :
  is_white_space c = false → trimEnd (String c r) ≠ "".
Proof. intros Hc. simpl. rewrite Hc. by destruct (trimEnd r). Qed.

(** [s.trim() === ""] says that [s] is blank. *)
Lemma trim_blank (s : string) : trim s = "" ↔ blank s = true.
Proof.
  unfold trim. rewrite <- trimStart_blank.
  destruct (trimStart_head s) as [-> | (c & r & -> & Hc)]; [done |].
  split; [| discriminate].
  intros H. by apply trimEnd_head in H.
Qed.

(** ** The JSON text is read back as the array it was printed from *)

Module JSONFacts.
Import JSON.

Lemma lex_quote_char (c : ascii) (acc r : string) :
  lex (Some acc) (quote_char c +:+ r) = lex (Some (snoc acc c)) r.
Proof. destruct c as [[] [] [] [] [] [] [] []]; reflexivity. Qed.

Lemma lex_quote_body (s acc r : string) :
  lex (Some acc) (quote_body s +:+ String dquote r)
  = cons (Str (acc +:+ s)) <$> lex None r.
Proof.
  revert acc. induction s as [|c s IH]; intros acc.
  - by rewrite string_app_nil_r.
  - cbn [quote_body]. rewrite string_app_assoc, lex_quote_char, IH.
    unfold snoc. by rewrite string_app_assoc.
Qed.

Lemma lex_quote (s r : string) :
  lex None (quote s +:+ r) = cons (Str s) <$> lex None r.
Proof.
  unfold quote. cbn [String.append].
  rewrite string_app_assoc. cbn [String.append].
  change (lex None (String dquote ?x)) with (lex (Some "") x).
  by rewrite lex_quote_body.
Qed.

Lemma lex_value (v : option string) (r : string) :
  lex None (value_text v +:+ r) = cons (value_token v) <$> lex None r.
Proof. destruct v as [s|]; [apply lex_quote | reflexivity]. Qed.

Lemma lex_property (key : string) (v : option string) (r : string) :
  lex None (property_text key v +:+ r)
  = (λ ts, Str key :: Colon :: value_token v :: ts) <$> lex None r.
Proof.
  unfold property_text. rewrite !string_app_assoc, lex_quote.
  cbn [String.append].
  change (lex None (String ":" (String " " ?x))) with (cons Colon <$> lex None x).
  rewrite lex_value. by destruct (lex None r).
Qed.

Lemma lex_open (r : string) :
  lex None ("{" +:+ String newline "    " +:+ r) = cons LBrace <$> lex None r.
Proof. reflexivity. Qed.

Lemma lex_sep (r : string) :
  lex None (property_sep +:+ r) = cons Comma <$> lex None r.
Proof. reflexivity. Qed.

Lemma lex_close (r : string) :
  lex None (String newline "  }" +:+ r) = cons RBrace <$> lex None r.
Proof. reflexivity. Qed.

Lemma lex_next (r : string) :
  lex None ("," +:+ String newline "  " +:+ r) = cons Comma <$> lex None r.
Proof. reflexivity. Qed.

Lemma lex_item (it : Item) (r : string) :
  lex None (item_text it +:+ r)
  = (λ ts, LBrace :: body_tokens it ++ ts) <$> lex None r.
Proof.
  unfold item_text. rewrite !string_app_assoc.
  rewrite lex_open.
  repeat (rewrite lex_property || rewrite lex_sep).
  rewrite lex_close.
  by destruct (lex None r).
Qed.

Lemma lex_elements (it : Item) (rest : list Item) (r : string) :
  lex None (elements_text (it :: rest) +:+ r)
  = (λ ts, LBrace :: elements_tokens' it rest ts) <$> lex None r.
Proof.
  revert it. induction rest as [|it' rest IH]; intros it.
  - cbn [elements_text elements_tokens']. by rewrite lex_item.
  - change (elements_text (it :: it' :: rest))
      with (item_text it +:+ "," +:+ String newline "  " +:+ elements_text (it' :: rest)).
    rewrite !string_app_assoc, lex_item, lex_next, IH.
    cbn [elements_tokens']. by destruct (lex None r).
Qed.

Lemma lex_stringify (it : Item) (rest : list Item) :
  lex None (stringify (it :: rest))
  = Some (LBracket :: LBrace :: elements_tokens' it rest [RBracket]).
Proof.
  change (stringify (it :: rest))
    with ("[" +:+ String newline "  " +:+ elements_text (it :: rest) +:+ String newline "]").
  change (lex None ("[" +:+ String newline "  " +:+ ?x)) with (cons LBracket <$> lex None x).
  by rewrite lex_elements.
Qed.

Lemma item_of_members_members (it : Item) : item_of_members (members it) = Some it.
Proof. by destruct it. Qed.

Lemma value_of_value_token (v : option string) : value_of (value_token v) = Some v.
Proof. by destruct v. Qed.

Lemma parse_objects_last (acc : list Item) (it : Item) :
  parse_objects acc [] (body_tokens it ++ [RBracket]) = Some (acc ++ [it]).
Proof.
  unfold body_tokens. cbn [app parse_objects value_of].
  rewrite !value_of_value_token.
  change (item_of_members _) with (item_of_members (members it)).
  by rewrite item_of_members_members.
Qed.

Lemma parse_objects_next (acc : list Item) (it : Item) (ts : list token) :
  parse_objects acc [] (body_tokens it ++ Comma :: LBrace :: ts)
  = parse_objects (acc ++ [it]) [] ts.
Proof.
  unfold body_tokens. cbn [app parse_objects value_of].
  rewrite !value_of_value_token.
  change (item_of_members _) with (item_of_members (members it)).
  by rewrite item_of_members_members.
Qed.

Lemma parse_objects_elements (acc : list Item) (it : Item) (rest : list Item) :
  parse_objects acc [] (elements_tokens' it rest [RBracket]) = Some (acc ++ it :: rest).
Proof.
  revert acc it. induction rest as [|it' rest IH]; intros acc it.
  - apply parse_objects_last.
  - cbn [elements_tokens']. rewrite parse_objects_next, IH.
    by rewrite <- app_assoc.
Qed.

(** [JSON.parse(JSON.stringify(items, null, 2))] is [items] again. *)
Lemma parse_stringify (items : list Item) : parse (stringify items) = Some items.
Proof.
  destruct items as [|it rest]; [reflexivity |].
  unfold parse. rewrite lex_stringify.
  apply (parse_objects_elements [] it rest).
Qed.

(** No array is printed as the empty text: at least the brackets are
    there. *)
Lemma stringify_not_empty (items : list Item) : stringify items ≠ "".
Proof. by destruct items. Qed.
End JSONFacts.

(** ** The document *)

Lemma load_save (items : list Item) (d : CacheDir) :
  loadInventory (saveInventory items d) = items.
Proof.
  unfold loadInventory, saveInventory. cbn [inventory_json].
  by rewrite JSONFacts.parse_stringify.
Qed.

Lemma load_absent (d : CacheDir) : inventory_json d = None → loadInventory d = [].
Proof. unfold loadInventory. by intros ->. Qed.

Lemma load_unreadable (d : CacheDir) (data : string) :
  inventory_json d = Some data → JSON.parse data = None → loadInventory d = [].
Proof. unfold loadInventory. by intros -> ->. Qed.

Lemma load_readable (d : CacheDir) (data : string) (items : list Item) :
  inventory_json d = Some data → JSON.parse data = Some items → loadInventory d = items.
Proof. unfold loadInventory. by intros -> ->. Qed.

Lemma prefix_text_all (s : string) : prefix_text (String.length s) s = s.
Proof. induction s as [|c s IH]; simpl; congruence. Qed.

Lemma writeFile_texts_last (data : string) : last (writeFile_texts data) = Some data.
Proof.
  unfold writeFile_texts. rewrite seq_S, fmap_app.
  cbn [fmap list_fmap]. rewrite last_snoc.
  simpl. by rewrite prefix_text_all.
Qed.

Lemma writeFile_texts_head (data : string) : head (writeFile_texts data) = Some "".
Proof. unfold writeFile_texts. simpl. by destruct data. Qed.

(** C8: loading a document that holds a collection and saving it straight
    back leaves a document that reads as exactly the same collection, with
    the photo files untouched; doing it once more changes nothing at all,
    not even the text. *)
Theorem save_load_roundtrip (d : CacheDir) (data : string) (items : list Item) :
  inventory_json d = Some data →
  JSON.parse data = Some items →
  let d' := saveInventory (loadInventory d) d in
  loadInventory d' = items
  ∧ loadInventory d' = loadInventory d
  ∧ files d' = files d
  ∧ saveInventory (loadInventory d') d' = d'.
Proof.
  intros Hdoc Hparse d'. subst d'.
  rewrite (load_readable d data items Hdoc Hparse), load_save.
  by repeat split.
Qed.

Lemma save_load_roundtrip_witness :
  inventory_json Shelf.dir = Some (JSON.stringify [Shelf.hammer; Shelf.drill])
  ∧ JSON.parse (JSON.stringify [Shelf.hammer; Shelf.drill]) = Some [Shelf.hammer; Shelf.drill]
  ∧ loadInventory (saveInventory (loadInventory Shelf.dir) Shelf.dir)
    = [Shelf.hammer; Shelf.drill].
Proof.
  split; [reflexivity |]. split; [vm_compute; reflexivity |].
  apply (save_load_roundtrip Shelf.dir
           (JSON.stringify [Shelf.hammer; Shelf.drill]) [Shelf.hammer; Shelf.drill]);
    vm_compute; reflexivity.
Defined.

(** C3, as stated, fails: while [saveInventory] writes a two-item collection
    over a one-item document, the file is first cut to length zero; a crash
    at that point leaves a document that reads neither as the old collection
    nor as the new one. *)
Lemma save_atomic_counterexample :
  let old := mkCacheDir (Some (JSON.stringify [Shelf.hammer])) ∅ in
  let new := [Shelf.hammer; Shelf.drill] in
  ∃ d', head (saveInventory_states new old) = Some d'
        ∧ inventory_json d' = Some ""
        ∧ loadInventory old = [Shelf.hammer]
        ∧ loadInventory d' ≠ loadInventory old
        ∧ loadInventory d' ≠ new.
Proof.
  eexists. split; [vm_compute; reflexivity |].
  split; [reflexivity |]. split; [vm_compute; reflexivity |].
  split; vm_compute; discriminate.
Qed.

(** C3, amended: [saveInventory] writes the serialized collection straight
    over the document, which is cut to length zero first and complete only
    when the write ends.  From then on [loadInventory] returns exactly the
    collection saved, and the photo files are as they were. *)
Theorem save_overwrites_in_place (items : list Item) (d : CacheDir) :
  head (saveInventory_states items d) = Some (mkCacheDir (Some "") (files d))
  ∧ last (saveInventory_states items d) = Some (saveInventory items d)
  ∧ loadInventory (saveInventory items d) = items
  ∧ files (saveInventory items d) = files d.
Proof.
  unfold saveInventory_states.
  rewrite fmap_last, writeFile_texts_last.
  split; [| split; [done | split; [apply load_save | done]]].
  pose proof (writeFile_texts_head (JSON.stringify items)) as H.
  destruct (writeFile_texts (JSON.stringify items)); by simplify_eq/=.
Qed.

(** ** POST /register *)

(** The test [!inventory_name || inventory_name.trim() === ""] on a
    string. *)
Lemma name_check_blank (s : string) :
  negb (truthy (JString s)) || bool_decide (trim s = "") = blank s.
Proof.
  destruct s as [|c s]; [done |].
  cbn [truthy negb orb].
  destruct (blank (String c s)) eqn:Hb.
  - apply bool_decide_eq_true. by apply trim_blank.
  - apply bool_decide_eq_false. rewrite trim_blank. congruence.
Qed.

Lemma register_rejects (name descr : jsval) (file : option File) (now : N) (d : CacheDir) :
  absent_or_blank name = true →
  register name descr file now d
  = (d, mkResponse 400 (ErrorJson "inventory_name is required")).
Proof.
  destruct name as [| |s]; [done | done |].
  unfold register, absent_or_blank. rewrite name_check_blank. by intros ->.
Qed.

Lemma register_accepts (s : string) (descr : jsval) (file : option File) (now : N)
    (d : CacheDir) :
  blank s = false →
  let newItem :=
    mkItem (pretty now) s (Some (description_or_empty descr)) (filename <$> file)
           (match file with Some _ => Some (photo_url (pretty now)) | None => None end) in
  register (JString s) descr file now d
  = (saveInventory (loadInventory d ++ [newItem]) d, mkResponse 201 (ItemJson newItem)).
Proof. intros Hb. unfold register. by rewrite name_check_blank, Hb. Qed.

Lemma load_upload (now rnd : N) (u : option Upload) (d : CacheDir) :
  loadInventory (upload_single now rnd u d).1 = loadInventory d.
Proof. by destruct u. Qed.

(** C6: [POST /register] answers 400 exactly when the name is absent, empty
    or blank, and then leaves the document alone.  Otherwise the item it
    builds carries the decimal clock reading as its id, the name as given,
    the description or the empty string, and, when a photo came with the
    request, the name of the file multer has already written; the item is
    appended to the collection, the collection is saved, and the answer is
    201 with that item. *)
Theorem register_contract (name descr : jsval) (u : option Upload)
    (upload_time rnd now : N) (d : CacheDir) :
  let up := upload_single upload_time rnd u d in
  let res := post_register name descr u upload_time rnd now d in
  (status res.2 = 400 ↔ absent_or_blank name = true)
  ∧ if absent_or_blank name then
      res.2 = mkResponse 400 (ErrorJson "inventory_name is required")
      ∧ res.1 = up.1
    else
      ∃ s, name = JString s
        ∧ let newItem :=
            mkItem (pretty now) s (Some (description_or_empty descr)) (filename <$> up.2)
                   (match up.2 with Some _ => Some (photo_url (pretty now)) | None => None end) in
          res.2 = mkResponse 201 (ItemJson newItem)
          ∧ loadInventory res.1 = (loadInventory d ++ [newItem])
          ∧ files res.1 = files up.1
          ∧ match u with
            | Some p =>
                photoFilename newItem = Some (storage_filename upload_time rnd (extname p))
                ∧ files res.1 !! storage_filename upload_time rnd (extname p) = Some (bytes p)
            | None => photoFilename newItem = None ∧ files res.1 = files d
            end.
Proof.
  intros up res. subst up res. unfold post_register.
  destruct (upload_single upload_time rnd u d) as [d1 file] eqn:Hup.
  pose proof (load_upload upload_time rnd u d) as Hload. rewrite Hup in Hload.
  cbn [fst snd] in *.
  destruct (absent_or_blank name) eqn:Hname.
  - rewrite register_rejects by done. by repeat split.
  - destruct name as [| |s]; [done | done |]. cbn [absent_or_blank] in Hname.
    rewrite register_accepts by done. cbn [fst snd status].
    split; [split; discriminate |].
    exists s. split; [done |]. cbn zeta.
    rewrite load_save, Hload. split; [done |]. split; [done |]. split; [done |].
    destruct u as [p|]; simplify_eq/=; [| done].
    split; [done |]. apply lookup_insert_eq.
Qed.

(** ** A document that cannot be read *)

(** C2, as stated, fails: the document of [Shelf.cut] exists and is not
    JSON, yet [loadInventory] returns the empty array; the next
    registration is accepted with 201 and its save replaces the document by
    one that holds the new item alone. *)
Lemma load_corrupt_counterexample :
  (∃ data, inventory_json Shelf.cut = Some data ∧ JSON.parse data = None)
  ∧ loadInventory Shelf.cut = []
  ∧ let res := register (JString "Saw") JUndefined None 1700000000002 Shelf.cut in
    status res.2 = 201
    ∧ loadInventory res.1 = [mkItem "1700000000002" "Saw" (Some "") None None].
Proof.
  split; [eexists; split; [reflexivity | vm_compute; reflexivity] |].
  split; vm_compute; auto.
Qed.

(** ** PUT /inventory/:id *)

Lemma findItem_Some (items : list Item) (i : string) (k : nat) (item : Item) :
  findItem items i = Some (k, item) →
  items !! k = Some item ∧ id item = i.
Proof. unfold findItem. intros H. apply list_find_Some in H. tauto. Qed.

(** Replacing the found item by one with the same id leaves it the first
    item with that id. *)
Lemma findItem_insert (items : list Item) (i : string) (k : nat) (item item' : Item) :
  findItem items i = Some (k, item) →
  id item' = i →
  findItem (<[k := item']> items) i = Some (k, item').
Proof.
  unfold findItem. intros H Hid. apply list_find_Some in H as (Hk & _ & Hbefore).
  apply list_find_Some. split; [| split; [done |]].
  - apply list_lookup_insert_eq. by eapply lookup_lt_Some.
  - intros j y Hj Hlt. rewrite list_lookup_insert_ne in Hj by lia. by eapply Hbefore.
Qed.

Lemma name_given_blank (name : jsval) :
  name_given name
  = match name with
    | JString s => if blank s then None else Some s
    | _ => None
    end.
Proof.
  destruct name as [| |s]; [done | done |]. unfold name_given.
  destruct (blank s) eqn:Hb.
  - rewrite bool_decide_eq_true_2; [done | by apply trim_blank].
  - rewrite bool_decide_eq_false_2; [done |]. rewrite trim_blank. congruence.
Qed.



(** ** GET /inventory/:id/photo *)


(** ** PUT /inventory/:id/photo *)

Lemma findItem_upload (i : string) (now rnd : N) (u : option Upload) (d : CacheDir) :
  findItem (loadInventory (upload_single now rnd u d).1) i = findItem (loadInventory d) i.
Proof. by rewrite load_upload. Qed.

(** The whole route when no item has the id. *)
Lemma put_inventory_photo_not_found (i : string) (u : option Upload) (upload_time rnd : N)
    (d : CacheDir) :
  findItem (loadInventory d) i = None →
  put_inventory_photo i u upload_time rnd d
  = (match u with
     | Some p =>
         mkCacheDir (inventory_json d)
                    (delete (storage_filename upload_time rnd (extname p)) (files d))
     | None => d
     end,
     Responded (mkResponse 404 (ErrorJson "Item not found"))).
Proof.
  intros Hfind. unfold put_inventory_photo.
  pose proof (findItem_upload i upload_time rnd u d) as Hup. rewrite Hfind in Hup.
  destruct u as [p|]; cbn [upload_single] in *; cbn [fst] in Hup;
    unfold put_photo; rewrite Hup; [| done].
  unfold unlink. cbn [files filename inventory_json]. rewrite lookup_insert_eq.
  by rewrite delete_insert_eq.
Qed.

(** C10: when no item has the id, [PUT /inventory/:id/photo] answers 404,
    the document is not written, the file multer has just stored for the
    request is removed again and every file of another name is as it was
    before the request. *)
Theorem put_photo_unknown_id (i : string) (u : option Upload) (upload_time rnd : N)
    (d : CacheDir) :
  findItem (loadInventory d) i = None →
  let res := put_inventory_photo i u upload_time rnd d in
  res.2 = Responded (mkResponse 404 (ErrorJson "Item not found"))
  ∧ inventory_json res.1 = inventory_json d
  ∧ loadInventory res.1 = loadInventory d
  ∧ match u with
    | None => files res.1 = files d
    | Some p =>
        let name := storage_filename upload_time rnd (extname p) in
        files res.1 = delete name (files d)
        ∧ files res.1 !! name = None
        ∧ ∀ other, other ≠ name → files res.1 !! other = files d !! other
    end.
Proof.
  intros Hfind res. subst res.
  rewrite put_inventory_photo_not_found by done. cbn [fst snd].
  destruct u as [p|]; cbn [inventory_json files]; [| done].
  repeat split; try done.
  - apply lookup_delete_eq.
  - intros other Hne. by apply lookup_delete_ne.
Qed.

Lemma put_photo_unknown_id_witness :
  findItem (loadInventory Shelf.dir) "42" = None
  ∧ (put_inventory_photo "42" (Some (mkUpload ".png" "PNG")) 1700000000005 7 Shelf.dir).2
    = Responded (mkResponse 404 (ErrorJson "Item not found"))
  ∧ inventory_json
      (put_inventory_photo "42" (Some (mkUpload ".png" "PNG")) 1700000000005 7 Shelf.dir).1
    = inventory_json Shelf.dir.
Proof.
  assert (findItem (loadInventory Shelf.dir) "42" = None) as H.
  { vm_compute. reflexivity. }
  split; [exact H |].
  destruct (put_photo_unknown_id "42" (Some (mkUpload ".png" "PNG")) 1700000000005 7
              Shelf.dir H) as (Hres & Hdoc & _).
  split; [exact Hres | exact Hdoc].
Defined.

(** ** Photo references *)

Lemma load_shelf : loadInventory Shelf.dir = [Shelf.hammer; Shelf.drill].
Proof. vm_compute. reflexivity. Qed.

Lemma shelf_references_resolve : references_resolve Shelf.dir.
Proof.
  intros it name Hin Hname. rewrite load_shelf in Hin.
  apply elem_of_cons in Hin as [-> | Hin]; [discriminate |].
  apply list_elem_of_singleton in Hin as ->.
  injection Hname as <-. by eexists.
Qed.

(** What the handler of [PUT /inventory/:id/photo] does to an item with a
    photo when the request carries no file: the old file is unlinked, the
    item is saved as it was. *)
Lemma put_photo_without_file (i : string) (d : CacheDir) (k : nat) (item : Item)
    (name : string) :
  findItem (loadInventory d) i = Some (k, item) →
  photo_of item = Some name →
  let res := put_photo i None d in
  res.2 = Responded (mkResponse 200 (ItemJson item))
  ∧ loadInventory res.1 = loadInventory d
  ∧ files res.1 !! name = None.
Proof.
  intros Hfind Hphoto res. subst res. unfold put_photo. rewrite Hfind, Hphoto.
  destruct (findItem_Some _ _ _ _ Hfind) as [Hk _]. cbn [fst snd].
  rewrite load_save, list_insert_id by done.
  repeat split. apply lookup_delete_eq.
Qed.

(** C1 fails on the code: every reference of [Shelf.dir] resolves, and the
    drill refers to its photo; a [PUT /inventory/:id/photo] for the drill
    that carries no file is answered with 200, removes the photo and saves
    the drill with the reference it had, which now names no file. *)
Theorem put_photo_without_file_dangles :
  let res := put_inventory_photo "1700000000001" None 0 0 Shelf.dir in
  references_resolve Shelf.dir
  ∧ res.2 = Responded (mkResponse 200 (ItemJson Shelf.drill))
  ∧ loadInventory res.1 = [Shelf.hammer; Shelf.drill]
  ∧ photoFilename Shelf.drill = Some "1700000000001-42.jpg"
  ∧ files res.1 !! "1700000000001-42.jpg" = None
  ∧ ¬ references_resolve res.1.
Proof.
  cbn zeta. split; [apply shelf_references_resolve |].
  assert (findItem (loadInventory Shelf.dir) "1700000000001" = Some (1, Shelf.drill)) as Hfind.
  { rewrite load_shelf. reflexivity. }
  destruct (put_photo_without_file "1700000000001" Shelf.dir 1 Shelf.drill
              "1700000000001-42.jpg" Hfind eq_refl) as (Hres & Hload & Hfile).
  rewrite load_shelf in Hload.
  change (put_inventory_photo "1700000000001" None 0 0 Shelf.dir)
    with (put_photo "1700000000001" None Shelf.dir).
  repeat split; try done.
  intros Hresolve.
  destruct (Hresolve Shelf.drill "1700000000001-42.jpg") as [content Hcontent].
  - rewrite Hload. set_solver.
  - reflexivity.
  - rewrite Hfile in Hcontent. discriminate.
Qed.

(** ** Ids *)

(** C5 fails on the code: two registrations served one after the other
    within one millisecond are both answered with 201 and leave two items
    with one id. *)
Theorem register_same_millisecond_same_id :
  let first := register (JString "Drill") JUndefined None 1700000000000 Shelf.fresh in
  let second := register (JString "Saw") JUndefined None 1700000000000 first.1 in
  status first.2 = 201
  ∧ status second.2 = 201
  ∧ id <$> loadInventory second.1 = ["1700000000000"; "1700000000000"]
  ∧ ¬ ids_distinct second.1.
Proof.
  cbn zeta.
  assert (id <$> loadInventory
            (register (JString "Saw") JUndefined None 1700000000000
               (register (JString "Drill") JUndefined None 1700000000000 Shelf.fresh).1).1
          = ["1700000000000"; "1700000000000"]) as Hids.
  { vm_compute. reflexivity. }
  split; [vm_compute; reflexivity |]. split; [vm_compute; reflexivity |].
  split; [exact Hids |].
  unfold ids_distinct. rewrite Hids. intros Hnodup.
  apply NoDup_cons in Hnodup as [Hnotin _]. apply Hnotin. set_solver.
Qed.

(** ** Requests in flight *)

(** Run without interruption, the three stretches of a task are the
    handler. *)
Lemma register_is_three_steps (name descr : jsval) (file : option File) (now : N)
    (d : CacheDir) :
  run [(0, now); (0, now); (0, now)] (d, [Received name descr file])
  = ((register name descr file now d).1, [Finished (register name descr file now d).2]).
Proof.
  unfold run, run_task, register. cbn [foldl snd fst lookup list_lookup step_task].
  destruct name as [| |s]; try reflexivity.
  by destruct (negb (truthy (JString s)) || bool_decide (trim s = "")).
Qed.

(** C9, as stated, fails: two registrations whose handlers both read the
    empty document before either has saved are both answered with 201, at
    different clock readings and so with different ids, and the document
    ends up holding the second item alone. *)
Lemma concurrent_register_counterexample :
  let drill := mkRegistration "Drill" JUndefined None in
  let saw := mkRegistration "Saw" JUndefined None in
  let schedule :=
    [ (0, 1700000000000%N); (1, 1700000000001%N);
      (0, 1700000000002%N); (0, 1700000000003%N);
      (1, 1700000000004%N); (1, 1700000000005%N) ] in
  let final := run schedule (Shelf.fresh, [received drill; received saw]) in
  final.2 = [ Finished (mkResponse 201 (ItemJson (new_item drill 1700000000002)));
              Finished (mkResponse 201 (ItemJson (new_item saw 1700000000004))) ]
  ∧ loadInventory final.1 = [new_item saw 1700000000004]
  ∧ length (loadInventory final.1) < 2.
Proof.
  cbn zeta.
  assert (loadInventory
            (run [ (0, 1700000000000%N); (1, 1700000000001%N);
                   (0, 1700000000002%N); (0, 1700000000003%N);
                   (1, 1700000000004%N); (1, 1700000000005%N) ]
               (Shelf.fresh,
                [received (mkRegistration "Drill" JUndefined None);
                 received (mkRegistration "Saw" JUndefined None)])).1
          = [new_item (mkRegistration "Saw" JUndefined None) 1700000000004]) as Hload.
  { vm_compute. reflexivity. }
  split; [vm_compute; reflexivity |]. split; [exact Hload |].
  rewrite Hload. simpl. lia.
Qed.

Lemma list_insert_middle {A} (l1 l2 : list A) (x y : A) :
  <[length l1 := y]> (l1 ++ x :: l2) = (l1 ++ y :: l2).
Proof. induction l1 as [|z l1 IH]; simpl; [done | by rewrite IH]. Qed.

(** The three stretches of the task at index [length done], run in a row
    on a task that has just arrived. *)
Lemma run_serial_one (d : CacheDir) (done rest : list RegisterTask) (r : Registration)
    (now : N) :
  blank (reg_name r) = false →
  run [(length done, now); (length done, now); (length done, now)]
      (d, done ++ received r :: rest)
  = (saveInventory (loadInventory d ++ [new_item r now]) d,
     (done ++ [Finished (mkResponse 201 (ItemJson (new_item r now)))]) ++ rest).
Proof.
  intros Hb. unfold run, run_task, received. cbn [foldl fst snd].
  rewrite list_lookup_middle by done. cbn [step_task].
  rewrite name_check_blank, Hb.
  rewrite list_insert_middle. cbn [fst snd].
  rewrite list_lookup_middle by done. cbn [step_task].
  rewrite list_insert_middle. cbn [fst snd].
  rewrite list_lookup_middle by done. cbn [step_task].
  rewrite list_insert_middle.
  by rewrite <- app_assoc.
Qed.

Lemma run_app (s1 s2 : list (nat * N)) (sys : System) :
  run (s1 ++ s2) sys = run s2 (run s1 sys).
Proof. apply foldl_app. Qed.

(** Served one after the other, the registrations are appended in order. *)
Lemma run_serial (regs : list Registration) :
  ∀ (times : list N) (d : CacheDir) (done : list RegisterTask),
    Forall (λ r, blank (reg_name r) = false) regs →
    length times = length regs →
    let final := run (serial (length done) times) (d, done ++ (received <$> regs)) in
    let new := zip_with new_item regs times in
    loadInventory final.1 = loadInventory d ++ new
    ∧ final.2 = done ++ ((λ it, Finished (mkResponse 201 (ItemJson it))) <$> new).
Proof.
  induction regs as [|r regs IH]; intros times d done Hvalid Hlen.
  - destruct times; [| done]. cbn. by rewrite !app_nil_r.
  - destruct times as [|now times]; [done |].
    apply Forall_cons in Hvalid as [Hr Hvalid]. injection Hlen as Hlen.
    cbn zeta. cbn [serial fmap list_fmap zip_with].
    change ((length done, now) :: (length done, now) :: (length done, now)
            :: serial (S (length done)) times)
      with ([(length done, now); (length done, now); (length done, now)]
            ++ serial (S (length done)) times).
    rewrite run_app, run_serial_one by done.
    set (done' := done ++ [Finished (mkResponse 201 (ItemJson (new_item r now)))]).
    replace (S (length done)) with (length done')
      by (subst done'; rewrite length_app; simpl; lia).
    destruct (IH times (saveInventory (loadInventory d ++ [new_item r now]) d) done'
                Hvalid Hlen) as [Hload Htasks].
    rewrite Hload, Htasks, load_save. subst done'.
    by rewrite <- !app_assoc.
Qed.

Lemma new_item_ids (regs : list Registration) (times : list N) :
  length times = length regs →
  id <$> zip_with new_item regs times = pretty <$> times.
Proof.
  revert times. induction regs as [|r regs IH]; intros [|now times] Hlen; try done.
  injection Hlen as Hlen. cbn. by rewrite IH.
Qed.

(** C9, amended: when the registrations are served one after the other,
    each handler reading the document only after the one before it has
    saved, every one of them is answered with 201 and the document ends up
    holding what it held before followed by all the new items, in order,
    whatever the clock readings; the ids of the new items differ pairwise
    exactly when the clock readings of the handlers do. *)
Theorem serial_register_keeps_all (regs : list Registration) (times : list N)
    (d : CacheDir) :
  Forall (λ r, blank (reg_name r) = false) regs →
  length times = length regs →
  let final := run (serial 0 times) (d, received <$> regs) in
  let new := zip_with new_item regs times in
  loadInventory final.1 = loadInventory d ++ new
  ∧ final.2 = (λ it, Finished (mkResponse 201 (ItemJson it))) <$> new
  ∧ length (loadInventory final.1) = length (loadInventory d) + length regs
  ∧ (NoDup (id <$> new) ↔ NoDup times).
Proof.
  intros Hvalid Hlen.
  destruct (run_serial regs times d [] Hvalid Hlen) as [Hload Htasks].
  cbn zeta in *. cbn [length app] in *.
  split; [exact Hload |]. split; [exact Htasks |]. split.
  - rewrite Hload, length_app, length_zip_with. lia.
  - rewrite new_item_ids by done. apply (NoDup_fmap _).
Qed.

(** Two registrations served one after the other within one millisecond:
    both items are kept. *)
Lemma serial_register_keeps_all_witness :
  let regs := [mkRegistration "Drill" JUndefined None; mkRegistration "Saw" JUndefined None] in
  let times := [1700000000000%N; 1700000000000%N] in
  Forall (λ r, blank (reg_name r) = false) regs
  ∧ length times = length regs
  ∧ length (loadInventory (run (serial 0 times) (Shelf.fresh, received <$> regs)).1) = 2.
Proof.
  cbn zeta.
  assert (Forall (λ r, blank (reg_name r) = false)
            [mkRegistration "Drill" JUndefined None; mkRegistration "Saw" JUndefined None])
    as Hvalid by (repeat constructor).
  split; [exact Hvalid |]. split; [reflexivity |].
  exact (proj1 (proj2 (proj2
    (serial_register_keeps_all
       [mkRegistration "Drill" JUndefined None; mkRegistration "Saw" JUndefined None]
       [1700000000000%N; 1700000000000%N] Shelf.fresh Hvalid eq_refl)))).
Defined.

(** ** Photo references across the operations

    Where every reference resolves and no photo is shared, the operations
    keep it so, as long as multer stores each upload under a name not yet
    in the directory.  The one exception is a [PUT /inventory/:id/photo]
    without a file on an item that has a photo. *)

(** What the whole route of [POST /register] leaves: the files as multer
    left them, and the collection either as it was or with one more item,
    which refers to the file of the request. *)
Lemma post_register_directory (name descr : jsval) (u : option Upload)
    (upload_time rnd now : N) (d : CacheDir) :
  let up := upload_single upload_time rnd u d in
  let res := post_register name descr u upload_time rnd now d in
  files res.1 = files up.1
  ∧ (loadInventory res.1 = loadInventory d
     ∨ ∃ it, loadInventory res.1 = loadInventory d ++ [it]
             ∧ photoFilename it = filename <$> up.2).
Proof.
  intros up res. subst up res. unfold post_register.
  destruct (upload_single upload_time rnd u d) as [d1 file] eqn:Hup.
  pose proof (load_upload upload_time rnd u d) as Hload. rewrite Hup in Hload.
  cbn [fst snd] in *.
  destruct (absent_or_blank name) eqn:Hname.
  - rewrite register_rejects by done. split; [done | by left].
  - destruct name as [| |s]; [done | done |]. cbn [absent_or_blank] in Hname.
    rewrite register_accepts by done. cbn [fst].
    split; [done |]. right. eexists. rewrite load_save, Hload. split; reflexivity.
Qed.

Lemma register_keeps_references (name descr : jsval) (u : option Upload)
    (upload_time rnd now : N) (d : CacheDir) :
  match u with
  | Some p => files d !! storage_filename upload_time rnd (extname p) = None
  | None => True
  end →
  references_resolve d → photos_unshared d →
  let d' := (post_register name descr u upload_time rnd now d).1 in
  references_resolve d' ∧ photos_unshared d'.
Proof.
  intros Hfresh Hres Hun d'. subst d'.
  assert (∀ it n, it ∈ loadInventory d → photoFilename it = Some n →
            is_Some (files (upload_single upload_time rnd u d).1 !! n)) as Hold.
  { intros it n Hin Hn. destruct (Hres it n Hin Hn) as [c Hc].
    destruct u as [p|]; cbn; [| by eexists].
    rewrite lookup_insert_ne; [by eexists |]. intros <-. congruence. }
  destruct (post_register_directory name descr u upload_time rnd now d)
    as [Hfiles [Hload | (new & Hload & Hphoto)]]; cbn zeta in *.
  - split.
    + intros it n Hin Hn. rewrite Hfiles. rewrite Hload in Hin. by eapply Hold.
    + unfold photos_unshared. rewrite Hload. exact Hun.
  - split.
    + intros it n Hin Hn. rewrite Hfiles. rewrite Hload in Hin.
      apply elem_of_app in Hin as [Hin | Hin]; [by eapply Hold |].
      apply list_elem_of_singleton in Hin as ->.
      destruct u as [p|]; cbn in *; [| congruence].
      rewrite Hphoto in Hn. injection Hn as <-. rewrite lookup_insert_eq. by eexists.
    + unfold photos_unshared. rewrite Hload. intros j1 j2 it1 it2 n H1 H2 Hn1 Hn2.
      apply lookup_app_Some in H1 as [H1 | [Hge1 H1]];
        apply lookup_app_Some in H2 as [H2 | [Hge2 H2]].
      * by eapply Hun.
      * apply list_lookup_singleton_Some in H2 as [_ <-].
        destruct u as [p|]; cbn in *; [| congruence].
        rewrite Hphoto in Hn2. injection Hn2 as <-.
        destruct (Hres it1 _ (list_elem_of_lookup_2 _ _ _ H1) Hn1) as [c Hc]. congruence.
      * apply list_lookup_singleton_Some in H1 as [_ <-].
        destruct u as [p|]; cbn in *; [| congruence].
        rewrite Hphoto in Hn1. injection Hn1 as <-.
        destruct (Hres it2 _ (list_elem_of_lookup_2 _ _ _ H2) Hn2) as [c Hc]. congruence.
      * apply list_lookup_singleton_Some in H1 as [E1 _].
        apply list_lookup_singleton_Some in H2 as [E2 _]. lia.
Qed.

Lemma photo_of_Some (it : Item) (name : string) :
  photo_of it = Some name → photoFilename it = Some name.
Proof. unfold photo_of. destruct (photoFilename it) as [[|c f]|]; congruence. Qed.

(** Putting an item with the same photo reference in the place of one
    changes neither property. *)
Lemma insert_same_photo (items : list Item) (k : nat) (item item' : Item) :
  items !! k = Some item →
  photoFilename item' = photoFilename item →
  ∀ j it', <[k := item']> items !! j = Some it' →
    ∃ it, items !! j = Some it ∧ photoFilename it' = photoFilename it.
Proof.
  intros Hk Hsame j it' Hj.
  apply list_lookup_insert_Some in Hj as [(<- & <- & _) | [Hne Hj]]; eauto.
Qed.

(** What [PUT /inventory/:id] leaves on an item it finds. *)
Lemma update_directory (i : string) (name descr : jsval) (d : CacheDir) (k : nat)
    (item : Item) :
  findItem (loadInventory d) i = Some (k, item) →
  ∃ item', (update i name descr d).1 = saveInventory (<[k := item']> (loadInventory d)) d
           ∧ photoFilename item' = photoFilename item.
Proof.
  intros Hfind. unfold update. rewrite Hfind. eexists. split; [reflexivity |].
  by destruct (name_given name), descr.
Qed.

Lemma update_keeps_references (i : string) (name descr : jsval) (d : CacheDir) :
  references_resolve d → photos_unshared d →
  let d' := (update i name descr d).1 in
  references_resolve d' ∧ photos_unshared d'.
Proof.
  intros Hres Hun d'. subst d'.
  destruct (findItem (loadInventory d) i) as [[k item]|] eqn:Hfind;
    [| by unfold update; rewrite Hfind].
  destruct (update_directory i name descr d k item Hfind) as (item' & -> & Hphoto).
  destruct (findItem_Some _ _ _ _ Hfind) as [Hk _].
  pose proof (insert_same_photo _ _ _ _ Hk Hphoto) as Hsame.
  split.
  - intros it n Hin Hn. rewrite load_save in Hin. cbn [saveInventory files].
    apply list_elem_of_lookup in Hin as [j Hj].
    destruct (Hsame j it Hj) as (it0 & Hj0 & E).
    apply (Hres it0 n); [by eapply list_elem_of_lookup_2 | congruence].
  - unfold photos_unshared. rewrite load_save. intros j1 j2 it1 it2 n H1 H2 Hn1 Hn2.
    destruct (Hsame j1 it1 H1) as (a1 & Ha1 & E1).
    destruct (Hsame j2 it2 H2) as (a2 & Ha2 & E2).
    apply (Hun j1 j2 a1 a2 n); congruence.
Qed.

(** The items that stay when the item at [k] is spliced out were at other
    indices, and two of them that were at one index are at one index. *)
Lemma lookup_delete_origin (items : list Item) (k j : nat) (it : Item) :
  delete k items !! j = Some it →
  ∃ j', items !! j' = Some it ∧ j' ≠ k ∧ j' = (if decide (j < k) then j else S j).
Proof.
  intros Hj. destruct (decide (j < k)) as [Hlt | Hge].
  - rewrite list_lookup_delete_lt in Hj by done. exists j. split; [done | split; [lia | done]].
  - rewrite list_lookup_delete_ge in Hj by lia. exists (S j). split; [done | split; [lia | done]].
Qed.

Lemma delete_keeps_references (i : string) (d : CacheDir) :
  references_resolve d → photos_unshared d →
  let d' := (delete_item i d).1 in
  references_resolve d' ∧ photos_unshared d'.
Proof.
  intros Hres Hun d'. subst d'. unfold delete_item.
  destruct (findItem (loadInventory d) i) as [[k item]|] eqn:Hfind; [| done].
  destruct (findItem_Some _ _ _ _ Hfind) as [Hk _].
  cbn [fst]. split.
  - intros it n Hin Hn. rewrite load_save in Hin.
    apply list_elem_of_lookup in Hin as [j Hj].
    apply lookup_delete_origin in Hj as (j' & Hj' & Hne & _).
    destruct (Hres it n (list_elem_of_lookup_2 _ _ _ Hj') Hn) as [c Hc].
    destruct (photo_of item) as [old|] eqn:Hitem; cbn; [| by eexists].
    apply photo_of_Some in Hitem.
    rewrite lookup_delete_ne; [by eexists |].
    intros <-. apply Hne. by apply (Hun j' k it item old).
  - unfold photos_unshared. rewrite load_save. intros j1 j2 it1 it2 n H1 H2 Hn1 Hn2.
    apply lookup_delete_origin in H1 as (j1' & H1 & _ & E1).
    apply lookup_delete_origin in H2 as (j2' & H2 & _ & E2).
    pose proof (Hun j1' j2' it1 it2 n H1 H2 Hn1 Hn2) as E.
    repeat case_decide; lia.
Qed.

(** The handler on an item it finds, with a file. *)
Lemma put_photo_found (i : string) (f : File) (d : CacheDir) (k : nat) (item : Item) :
  findItem (loadInventory d) i = Some (k, item) →
  let item' :=
    mkItem (id item) (inventory_name item) (description item)
           (Some (filename f)) (Some (photo_url i)) in
  put_photo i (Some f) d
  = (saveInventory (<[k := item']> (loadInventory d))
       (match photo_of item with
        | Some name => unlink_if_exists name d
        | None => d
        end),
     Responded (mkResponse 200 (ItemJson item'))).
Proof. intros Hfind. unfold put_photo. by rewrite Hfind. Qed.

Lemma put_photo_keeps_references (i : string) (p : Upload) (upload_time rnd : N)
    (d : CacheDir) :
  files d !! storage_filename upload_time rnd (extname p) = None →
  references_resolve d → photos_unshared d →
  let d' := (put_inventory_photo i (Some p) upload_time rnd d).1 in
  references_resolve d' ∧ photos_unshared d'.
Proof.
  intros Hfresh Hres Hun d'. subst d'.
  destruct (findItem (loadInventory d) i) as [[k item]|] eqn:Hfind.
  2: { rewrite put_inventory_photo_not_found by done. cbn [fst]. split.
       - intros it n Hin Hn. destruct (Hres it n Hin Hn) as [c Hc]. cbn [files].
         rewrite lookup_delete_ne; [by eexists |]. intros <-. congruence.
       - exact Hun. }
  destruct (findItem_Some _ _ _ _ Hfind) as [Hk _].
  set (new := storage_filename upload_time rnd (extname p)) in *.
  assert (∀ it, it ∈ loadInventory d → photoFilename it ≠ Some new) as Hnew.
  { intros it Hin Hn. destruct (Hres it new Hin Hn) as [c Hc]. congruence. }
  unfold put_inventory_photo. cbn [upload_single]. fold new.
  set (d1 := mkCacheDir (inventory_json d) (<[new := bytes p]> (files d))).
  rewrite (put_photo_found i (mkFile new) d1 k item) by exact Hfind.
  change (loadInventory d1) with (loadInventory d). cbn [filename].
  set (item' := mkItem (id item) (inventory_name item) (description item) (Some new)
                       (Some (photo_url i))).
  assert (∀ n, n ≠ new → (∀ it, loadInventory d !! k = Some it → photoFilename it ≠ Some n) →
            is_Some (files d !! n) →
            is_Some (files (match photo_of item with
                            | Some name => unlink_if_exists name d1
                            | None => d1
                            end) !! n)) as Hkeep.
  { intros n Hne Hnot [c Hc].
    assert (files d1 !! n = Some c) as Hc1 by (subst d1; cbn; by rewrite lookup_insert_ne).
    destruct (photo_of item) as [old|] eqn:Hitem; cbn; [| by eexists].
    apply photo_of_Some in Hitem.
    rewrite lookup_delete_ne; [rewrite lookup_insert_ne by done; by eexists |].
    intros <-. by apply (Hnot item). }
  cbn [fst]. split.
  - intros it n Hin Hn. rewrite load_save in Hin.
    match goal with |- is_Some (files (saveInventory _ ?x) !! n) =>
      change (is_Some (files x !! n)) end.
    apply list_elem_of_lookup in Hin as [j Hj].
    apply list_lookup_insert_Some in Hj as [(<- & <- & _) | [Hne Hj]].
    + cbn in Hn. injection Hn as <-.
      destruct (photo_of item) as [old|] eqn:Hitem; cbn;
        [| rewrite lookup_insert_eq; by eexists].
      apply photo_of_Some in Hitem.
      rewrite lookup_delete_ne; [rewrite lookup_insert_eq; by eexists |].
      intros E. apply (Hnew item (list_elem_of_lookup_2 _ _ _ Hk)).
      rewrite Hitem. by f_equal.
    + apply Hkeep.
      * intros ->. by apply (Hnew it (list_elem_of_lookup_2 _ _ _ Hj)).
      * intros it0 Hk0 Hn0. apply Hne. by apply (Hun k j it0 it n).
      * by apply (Hres it n (list_elem_of_lookup_2 _ _ _ Hj)).
  - unfold photos_unshared. rewrite load_save. intros j1 j2 it1 it2 n H1 H2 Hn1 Hn2.
    apply list_lookup_insert_Some in H1 as [(<- & <- & _) | [Hne1 H1]];
      apply list_lookup_insert_Some in H2 as [(<- & <- & _) | [Hne2 H2]].
    + done.
    + cbn in Hn1. injection Hn1 as <-.
      by destruct (Hnew it2 (list_elem_of_lookup_2 _ _ _ H2)).
    + cbn in Hn2. injection Hn2 as <-.
      by destruct (Hnew it1 (list_elem_of_lookup_2 _ _ _ H1)).
    + by apply (Hun j1 j2 it1 it2 n).
Qed.

Lemma put_photo_nothing_to_do (i : string) (d : CacheDir) (k : nat) (item : Item) :
  findItem (loadInventory d) i = Some (k, item) →
  photo_of item = None →
  put_photo i None d
  = (saveInventory (loadInventory d) d, Responded (mkResponse 200 (ItemJson item))).
Proof.
  intros Hfind Hphoto. unfold put_photo. rewrite Hfind, Hphoto.
  destruct (findItem_Some _ _ _ _ Hfind) as [Hk _].
  by rewrite list_insert_id.
Qed.

(** ** The shelf, request by request *)

Example get_photo_of_the_drill :
  get_photo "1700000000001" Shelf.dir = mkResponse 200 (FileBody "image/jpeg" "JPEG").
Proof. vm_compute. reflexivity. Qed.

Example get_photo_of_the_hammer :
  get_photo "1700000000000" Shelf.dir = mkResponse 404 (ErrorJson "Photo not found").
Proof. vm_compute. reflexivity. Qed.

Example get_photo_file_gone :
  get_photo "1700000000001" (mkCacheDir (inventory_json Shelf.dir) ∅)
  = mkResponse 404 (ErrorJson "Photo file not found").
Proof. vm_compute. reflexivity. Qed.

(** A drill is registered with a photo, its photo is fetched, the drill is
    deleted, and the photo is asked for again. *)
Example drill_scenario :
  let photo := mkUpload ".png" "PNG bytes" in
  let registered :=
    post_register (JString "Drill") (JString "") (Some photo)
                  1700000000000 42 1700000000001 Shelf.fresh in
  let deleted := delete_item "1700000000001" registered.1 in
  registered.2
  = mkResponse 201
      (ItemJson (mkItem "1700000000001" "Drill" (Some "") (Some "1700000000000-42.png")
                        (Some "/inventory/1700000000001/photo")))
  ∧ get_photo "1700000000001" registered.1 = mkResponse 200 (FileBody "image/jpeg" "PNG bytes")
  ∧ deleted.2 = mkResponse 200 (DeletedJson "Deleted" "1700000000001")
  ∧ get_photo "1700000000001" deleted.1 = mkResponse 404 (ErrorJson "Photo not found")
  ∧ files deleted.1 !! "1700000000000-42.png" = None
  ∧ loadInventory deleted.1 = [].
Proof. vm_compute. repeat split. Qed.

(** Updating or deleting under an id that was never issued is answered
    with 404 and changes nothing. *)
Example unknown_id_scenario :
  update "42" (JString "Saw") JUndefined Shelf.dir
  = (Shelf.dir, mkResponse 404 (ErrorJson "Item not found"))
  ∧ delete_item "42" Shelf.dir = (Shelf.dir, mkResponse 404 (ErrorJson "Item not found")).
Proof. vm_compute. split; reflexivity. Qed.

(** ** The names of the stored photos *)

Lemma pretty_N_char_digit (x : N) : is_digit (pretty_N_char x) = true.
Proof. unfold pretty_N_char. by repeat case_match. Qed.

Lemma pretty_N_go_digits (x : N) :
  ∀ s, all_digits s = true → s ≠ "" →
    all_digits (pretty_N_go x s) = true ∧ pretty_N_go x s ≠ "".
Proof.
  induction (N.lt_wf_0 x) as [x _ IH]; intros s Hs Hne.
  assert (x = 0 ∨ 0 < x)%N as [-> | Hpos] by lia.
  - by rewrite pretty_N_go_0.
  - rewrite pretty_N_go_step by done. apply IH.
    + by apply N.div_lt.
    + cbn [all_digits]. by rewrite pretty_N_char_digit, Hs.
    + done.
Qed.

(** [String(n)] is a non-empty run of decimal digits. *)
Lemma pretty_digits (n : N) : all_digits (pretty n) = true ∧ pretty n ≠ "".
Proof.
  unfold pretty, pretty_N. case_decide as Hn; [done |].
  rewrite pretty_N_go_step by lia. apply pretty_N_go_digits.
  - cbn [all_digits]. by rewrite pretty_N_char_digit.
  - done.
Qed.

Lemma string_length_app (s1 s2 : string) :
  String.length (s1 +:+ s2) = String.length s1 + String.length s2.
Proof. induction s1 as [|c s1 IH]; simpl; congruence. Qed.

Lemma string_app_inv_tail (s1 s2 e : string) : s1 +:+ e = s2 +:+ e → s1 = s2.
Proof.
  intros H.
  assert (String.length s1 = String.length s2) as Hlen.
  { apply (f_equal String.length) in H. rewrite !string_length_app in H. lia. }
  revert s2 H Hlen. induction s1 as [|c s1 IH]; intros [|c2 s2] H Hlen; try done.
  simpl in H. injection H as -> H. f_equal. apply IH; [done |]. simpl in Hlen. lia.
Qed.

(** Two runs of digits, each followed by a dash, that start one text. *)
Lemma digits_dash_inv (a a' x x' : string) :
  all_digits a = true → all_digits a' = true →
  a +:+ String "-" x = a' +:+ String "-" x' → a = a' ∧ x = x'.
Proof.
  revert a'. induction a as [|c a IH]; intros [|c' a'] Ha Ha' H; simpl in *.
  - by injection H as ->.
  - injection H as <- _. done.
  - injection H as -> _. done.
  - injection H as -> H.
    apply andb_prop in Ha as [_ Ha]. apply andb_prop in Ha' as [_ Ha'].
    destruct (IH a' Ha Ha' H) as [-> ->]. done.
Qed.

Lemma storage_filename_head (now rnd : N) (ext : string) :
  ∃ c rest, storage_filename now rnd ext = String c rest ∧ is_digit c = true.
Proof.
  unfold storage_filename. destruct (pretty_digits now) as [Hd Hne].
  destruct (pretty now) as [|c r]; [done |].
  exists c. eexists. split; [reflexivity |].
  cbn [all_digits] in Hd. by apply andb_prop in Hd as [Hc _].
Qed.

(** X1: the name multer stores an upload under starts with a decimal digit;
    it is therefore never empty and never the name of the document,
    [inventory.json]: an upload cannot overwrite the catalog. *)
Theorem storage_filename_not_document (now rnd : N) (ext : string) :
  (∃ c rest, storage_filename now rnd ext = String c rest ∧ is_digit c = true)
  ∧ storage_filename now rnd ext ≠ ""
  ∧ storage_filename now rnd ext ≠ "inventory.json".
Proof.
  destruct (storage_filename_head now rnd ext) as (c & rest & E & Hc).
  split; [by exists c, rest |]. rewrite E. split; [done |].
  intros H. injection H as -> _. discriminate.
Qed.

(** X2: for one extension, the stored name determines the clock reading and
    the random draw it was built from: two uploads get one name only when
    they agree on both. *)
Theorem storage_filename_inj (now1 rnd1 now2 rnd2 : N) (ext : string) :
  storage_filename now1 rnd1 ext = storage_filename now2 rnd2 ext →
  now1 = now2 ∧ rnd1 = rnd2.
Proof.
  unfold storage_filename. rewrite !string_app_assoc.
  change ("-" +:+ ?x) with (String "-" x).
  intros H.
  apply digits_dash_inv in H as [Hnow H]; try apply pretty_digits.
  apply string_app_inv_tail in H.
  split; by apply (inj pretty).
Qed.

Lemma storage_filename_inj_witness :
  storage_filename 1700000000000 42 ".png" = storage_filename 1700000000000 42 ".png"
  ∧ 1700000000000%N = 1700000000000%N.
Proof.
  split; [reflexivity |].
  exact (proj1 (storage_filename_inj 1700000000000 42 1700000000000 42 ".png" eq_refl)).
Defined.

(** ** Looking an item up *)

Lemma findItem_None (items : list Item) (i : string) :
  findItem items i = None ↔ ∀ it, it ∈ items → id it ≠ i.
Proof. unfold findItem. rewrite list_find_None, Forall_forall. done. Qed.

Lemma findItem_app_old (items more : list Item) (i : string) (found : nat * Item) :
  findItem items i = Some found → findItem (items ++ more) i = Some found.
Proof. destruct found as [k item]. apply list_find_app_l. Qed.

Lemma findItem_app_new (items : list Item) (new : Item) :
  findItem items (id new) = None →
  findItem (items ++ [new]) (id new) = Some (length items, new).
Proof.
  intros Hnone. unfold findItem in *. rewrite list_find_app_r by done.
  cbn. by rewrite decide_True.
Qed.

(** ** POST /register, continued *)

(** The route on a name that passes the check. *)
Lemma post_register_accepts (s : string) (descr : jsval) (u : option Upload)
    (upload_time rnd now : N) (d : CacheDir) :
  blank s = false →
  let up := upload_single upload_time rnd u d in
  let newItem := new_item (mkRegistration s descr up.2) now in
  post_register (JString s) descr u upload_time rnd now d
  = (saveInventory (loadInventory d ++ [newItem]) up.1,
     mkResponse 201 (ItemJson newItem)).
Proof.
  intros Hb up newItem. subst up newItem. unfold post_register.
  pose proof (load_upload upload_time rnd u d) as Hload.
  destruct (upload_single upload_time rnd u d) as [d1 file]. cbn [fst snd] in *.
  rewrite register_accepts by done. by rewrite Hload.
Qed.

(** X3: a registration that is rejected for its name leaves the photo that
    came with it in the cache directory: the answer is 400, the document is
    not touched, the file multer stored stays, and where every reference
    resolved and the name was free no item refers to it. *)
Theorem rejected_register_leaves_upload (name descr : jsval) (p : Upload)
    (upload_time rnd now : N) (d : CacheDir) :
  absent_or_blank name = true →
  files d !! storage_filename upload_time rnd (extname p) = None →
  references_resolve d →
  let stored := storage_filename upload_time rnd (extname p) in
  let res := post_register name descr (Some p) upload_time rnd now d in
  res.2 = mkResponse 400 (ErrorJson "inventory_name is required")
  ∧ inventory_json res.1 = inventory_json d
  ∧ files res.1 = <[stored := bytes p]> (files d)
  ∧ ∀ it, it ∈ loadInventory res.1 → photoFilename it ≠ Some stored.
Proof.
  intros Hname Hfree Hres stored res. subst stored res.
  unfold post_register. cbn [upload_single].
  rewrite register_rejects by done. cbn [fst snd inventory_json files].
  repeat split.
  intros it Hin Hphoto.
  change (it ∈ loadInventory d) in Hin.
  destruct (Hres it _ Hin Hphoto) as [c Hc]. congruence.
Qed.

Lemma rejected_register_leaves_upload_witness :
  absent_or_blank (JString "  ") = true
  ∧ files Shelf.dir !! storage_filename 1700000000005 7 ".png" = None
  ∧ references_resolve Shelf.dir
  ∧ files (post_register (JString "  ") JUndefined (Some (mkUpload ".png" "PNG"))
             1700000000005 7 1700000000006 Shelf.dir).1
    = <[storage_filename 1700000000005 7 ".png" := "PNG"]> (files Shelf.dir).
Proof.
  assert (files Shelf.dir !! storage_filename 1700000000005 7 ".png" = None) as Hfree.
  { vm_compute. reflexivity. }
  split; [reflexivity |]. split; [exact Hfree |].
  split; [exact shelf_references_resolve |].
  exact (proj1 (proj2 (proj2
    (rejected_register_leaves_upload (JString "  ") JUndefined (mkUpload ".png" "PNG")
       1700000000005 7 1700000000006 Shelf.dir eq_refl Hfree shelf_references_resolve)))).
Defined.

(** X4: a registration answered with 201 can be fetched by its id at once,
    as long as no earlier item carries that id; when one does,
    [GET /inventory/:id] under the new id still answers with the earlier
    item. *)
Theorem register_then_get (s : string) (descr : jsval) (u : option Upload)
    (upload_time rnd now : N) (d : CacheDir) :
  blank s = false →
  let up := upload_single upload_time rnd u d in
  let newItem := new_item (mkRegistration s descr up.2) now in
  let d' := (post_register (JString s) descr u upload_time rnd now d).1 in
  match findItem (loadInventory d) (pretty now) with
  | None => get_item (pretty now) d' = mkResponse 200 (ItemJson newItem)
  | Some (_, old) => get_item (pretty now) d' = mkResponse 200 (ItemJson old)
  end.
Proof.
  intros Hb up newItem d'. subst d'.
  rewrite post_register_accepts by done. fold up newItem. cbn [fst].
  unfold get_item. rewrite load_save.
  destruct (findItem (loadInventory d) (pretty now)) as [[k old]|] eqn:Hfind.
  - by rewrite (findItem_app_old _ _ _ _ Hfind).
  - change (pretty now) with (id newItem) in *. by rewrite findItem_app_new.
Qed.

Lemma register_then_get_witness :
  blank "Saw" = false
  ∧ get_item "1700000000002"
      (post_register (JString "Saw") JUndefined None 0 0 1700000000002 Shelf.dir).1
    = mkResponse 200 (ItemJson (new_item (mkRegistration "Saw" JUndefined None) 1700000000002)).
Proof.
  split; [reflexivity |].
  pose proof (register_then_get "Saw" JUndefined None 0 0 1700000000002 Shelf.dir eq_refl)
    as H.
  cbn zeta in H.
  replace (findItem (loadInventory Shelf.dir) (pretty 1700000000002%N)) with (@None (nat * Item))
    in H by (vm_compute; reflexivity).
  exact H.
Defined.

(** ** DELETE /inventory/:id, continued *)

(** The handler on an item it finds. *)
Lemma delete_item_found (i : string) (d : CacheDir) (k : nat) (item : Item) :
  findItem (loadInventory d) i = Some (k, item) →
  delete_item i d
  = (saveInventory (delete k (loadInventory d))
       (match photo_of item with
        | Some name => unlink_if_exists name d
        | None => d
        end),
     mkResponse 200 (DeletedJson "Deleted" i)).
Proof. intros Hfind. unfold delete_item. by rewrite Hfind. Qed.

Lemma delete_last {A} (l : list A) (x : A) : delete (length l) (l ++ [x]) = l.
Proof. induction l as [|y l IH]; simpl; [done | by rewrite IH]. Qed.

(** X5: deleting an item straight after its registration undoes the
    registration, when its id and the name of its photo were not in use
    before: the collection and the files are those from before the
    registration. *)
Theorem register_then_delete (s : string) (descr : jsval) (u : option Upload)
    (upload_time rnd now : N) (d : CacheDir) :
  blank s = false →
  findItem (loadInventory d) (pretty now) = None →
  match u with
  | Some p => files d !! storage_filename upload_time rnd (extname p) = None
  | None => True
  end →
  let d1 := (post_register (JString s) descr u upload_time rnd now d).1 in
  let res := delete_item (pretty now) d1 in
  res.2 = mkResponse 200 (DeletedJson "Deleted" (pretty now))
  ∧ loadInventory res.1 = loadInventory d
  ∧ files res.1 = files d.
Proof.
  intros Hb Hnew Hfree d1 res. subst res d1.
  rewrite post_register_accepts by done. cbn [fst].
  set (newItem := new_item _ now).
  assert (findItem (loadInventory d ++ [newItem]) (pretty now)
          = Some (length (loadInventory d), newItem)) as Hfind
    by (by apply (findItem_app_new _ newItem)).
  rewrite (delete_item_found _ _ (length (loadInventory d)) newItem)
    by (by rewrite load_save).
  cbn [fst snd]. rewrite !load_save, delete_last.
  split; [done |]. split; [done |].
  destruct u as [p|]; cbn; [| done].
  destruct (storage_filename_head upload_time rnd (extname p)) as (c & rest & E & _).
  unfold photo_of, newItem, new_item. cbn. rewrite E. cbn. rewrite <- E.
  by apply delete_insert_id.
Qed.

Lemma register_then_delete_witness :
  blank "Saw" = false
  ∧ findItem (loadInventory Shelf.dir) (pretty 1700000000002%N) = None
  ∧ files Shelf.dir !! storage_filename 1700000000005 7 ".png" = None
  ∧ loadInventory
      (delete_item (pretty 1700000000002%N)
         (post_register (JString "Saw") JUndefined (Some (mkUpload ".png" "PNG"))
            1700000000005 7 1700000000002 Shelf.dir).1).1
    = loadInventory Shelf.dir.
Proof.
  assert (findItem (loadInventory Shelf.dir) (pretty 1700000000002%N) = None) as Hnew
    by (vm_compute; reflexivity).
  assert (files Shelf.dir !! storage_filename 1700000000005 7 ".png" = None) as Hfree
    by (vm_compute; reflexivity).
  split; [reflexivity |]. split; [exact Hnew |]. split; [exact Hfree |].
  exact (proj1 (proj2
    (register_then_delete "Saw" JUndefined (Some (mkUpload ".png" "PNG"))
       1700000000005 7 1700000000002 Shelf.dir eq_refl Hnew Hfree))).
Defined.

(** ** Ids, continued *)

(** X6: after a registration answered with 201 the ids of the collection
    are pairwise distinct exactly when they were so before and no item
    carried the decimal clock reading of the handler as its id. *)
Theorem register_ids_distinct (s : string) (descr : jsval) (u : option Upload)
    (upload_time rnd now : N) (d : CacheDir) :
  blank s = false →
  ids_distinct (post_register (JString s) descr u upload_time rnd now d).1
  ↔ ids_distinct d ∧ findItem (loadInventory d) (pretty now) = None.
Proof.
  intros Hb. rewrite post_register_accepts by done. cbn [fst].
  unfold ids_distinct. rewrite load_save, fmap_app. cbn [fmap list_fmap id new_item].
  rewrite NoDup_app, findItem_None. split.
  - intros (Hnodup & Hnotin & _). split; [done |].
    intros it Hin Hid. apply (Hnotin (id it)); [by apply list_elem_of_fmap_2 |].
    rewrite Hid. by apply list_elem_of_singleton.
  - intros [Hnodup Hnew]. split; [done |]. split; [| apply NoDup_singleton].
    intros x Hx Hx'. apply list_elem_of_singleton in Hx' as ->.
    apply list_elem_of_fmap in Hx as (it & Hid & Hin). by apply (Hnew it).
Qed.

Lemma register_ids_distinct_witness :
  blank "Saw" = false
  ∧ (ids_distinct Shelf.dir ∧ findItem (loadInventory Shelf.dir) (pretty 1700000000002%N) = None
     → ids_distinct
         (post_register (JString "Saw") JUndefined None 0 0 1700000000002 Shelf.dir).1).
Proof.
  split; [reflexivity |].
  exact (proj2 (register_ids_distinct "Saw" JUndefined None 0 0 1700000000002 Shelf.dir
                  eq_refl)).
Defined.

(** ** The application *)

Lemma app_post_register (req : Request) (d : CacheDir) :
  method req = POST → path req = RegisterPath →
  express_app req d
  = (let res := post_register (body_inventory_name req) (body_description req)
                  (photo req) (clock_at_upload req) (random_draw req)
                  (clock_at_handler req) d in
     (res.1, Some (Json (Responded res.2)))).
Proof.
  destruct req as [m p n de bi hp ph cu rd ch]. cbn. intros -> ->.
  unfold express_app. cbn.
  by destruct (post_register n de ph cu rd ch d).
Qed.

Lemma app_put_item (req : Request) (d : CacheDir) (i : string) :
  method req = PUT → path req = ItemPath i →
  express_app req d
  = (let res := update i (body_inventory_name req) (body_description req) d in
     (res.1, Some (Json (Responded res.2)))).
Proof.
  destruct req as [m p n de bi hp ph cu rd ch]. cbn. intros -> ->.
  unfold express_app. cbn. by destruct (update i n de d).
Qed.

Lemma app_delete_item (req : Request) (d : CacheDir) (i : string) :
  method req = DELETE → path req = ItemPath i →
  express_app req d
  = (let res := delete_item i d in (res.1, Some (Json (Responded res.2)))).
Proof.
  destruct req as [m p n de bi hp ph cu rd ch]. cbn. intros -> ->.
  unfold express_app. cbn. by destruct (delete_item i d).
Qed.

Lemma app_put_photo (req : Request) (d : CacheDir) (i : string) :
  method req = PUT → path req = ItemPhotoPath i →
  express_app req d
  = (let res := put_inventory_photo i (photo req) (clock_at_upload req)
                  (random_draw req) d in
     (res.1, Some (Json res.2))).
Proof.
  destruct req as [m p n de bi hp ph cu rd ch]. cbn. intros -> ->.
  unfold express_app. cbn. by destruct (put_inventory_photo i ph cu rd d).
Qed.

Lemma writes_cases (req : Request) :
  writes req = true →
  (method req = POST ∧ path req = RegisterPath)
  ∨ (∃ i, method req = PUT ∧ path req = ItemPath i)
  ∨ (∃ i, method req = DELETE ∧ path req = ItemPath i)
  ∨ (∃ i, method req = PUT ∧ path req = ItemPhotoPath i).
Proof.
  unfold writes. destruct (method req), (path req); try discriminate; intros _; eauto 6.
Qed.

Lemma app_no_write (req : Request) (d : CacheDir) :
  writes req = false → (express_app req d).1 = d.
Proof.
  destruct req as [m p n de bi hp ph cu rd ch]. unfold writes. cbn [method path].
  destruct m, p; try discriminate; intros _; reflexivity.
Qed.

Lemma app_get_item (req : Request) (d : CacheDir) (i : string) :
  method req = GET ∨ method req = HEAD → path req = ItemPath i →
  express_app req d = (d, Some (Json (Responded (get_item i d)))).
Proof.
  destruct req as [m p n de bi hp ph cu rd ch]. cbn. by intros [-> | ->] ->.
Qed.

Lemma app_get_photo (req : Request) (d : CacheDir) (i : string) :
  method req = GET ∨ method req = HEAD → path req = ItemPhotoPath i →
  express_app req d = (d, Some (Json (Responded (get_photo i d)))).
Proof.
  destruct req as [m p n de bi hp ph cu rd ch]. cbn. by intros [-> | ->] ->.
Qed.

(** No handler answers 405 itself. *)
Lemma register_status (name descr : jsval) (file : option File) (now : N) (d : CacheDir) :
  status (register name descr file now d).2 ≠ 405.
Proof.
  unfold register. destruct name as [| |s]; [done | done |].
  by destruct (negb (truthy (JString s)) || bool_decide (trim s = "")).
Qed.

Lemma post_register_status (name descr : jsval) (u : option Upload)
    (upload_time rnd now : N) (d : CacheDir) :
  status (post_register name descr u upload_time rnd now d).2 ≠ 405.
Proof.
  unfold post_register. destruct (upload_single upload_time rnd u d).
  apply register_status.
Qed.

Lemma update_status (i : string) (name descr : jsval) (d : CacheDir) :
  status (update i name descr d).2 ≠ 405.
Proof. unfold update. by destruct (findItem (loadInventory d) i) as [[? ?]|]. Qed.

Lemma delete_item_status (i : string) (d : CacheDir) :
  status (delete_item i d).2 ≠ 405.
Proof. unfold delete_item. by destruct (findItem (loadInventory d) i) as [[? ?]|]. Qed.

Lemma get_item_status (i : string) (d : CacheDir) : status (get_item i d) ≠ 405.
Proof. unfold get_item. by destruct (findItem (loadInventory d) i) as [[? ?]|]. Qed.

Lemma get_photo_status (i : string) (d : CacheDir) : status (get_photo i d) ≠ 405.
Proof.
  unfold get_photo.
  destruct (findItem (loadInventory d) i ≫= _) as [name|]; [| done].
  by destruct (files d !! name).
Qed.

Lemma put_photo_status (i : string) (file : option File) (d : CacheDir) (r : Response) :
  (put_photo i file d).2 = Responded r → status r ≠ 405.
Proof.
  unfold put_photo. destruct (findItem (loadInventory d) i) as [[? ?]|].
  - cbn. by intros [= <-].
  - destruct file as [f|]; [destruct (unlink (filename f) d) |]; cbn;
      intros [= <-]; done.
Qed.

Lemma put_inventory_photo_status (i : string) (u : option Upload) (upload_time rnd : N)
    (d : CacheDir) (r : Response) :
  (put_inventory_photo i u upload_time rnd d).2 = Responded r → status r ≠ 405.
Proof.
  unfold put_inventory_photo. destruct (upload_single upload_time rnd u d).
  apply put_photo_status.
Qed.

(** A registration that is refused leaves the document as it was. *)
Lemma post_register_refused (name descr : jsval) (u : option Upload)
    (upload_time rnd now : N) (d : CacheDir) :
  let res := post_register name descr u upload_time rnd now d in
  (400 ≤ status res.2)%nat → inventory_json res.1 = inventory_json d.
Proof.
  cbn zeta. destruct (absent_or_blank name) eqn:Hname.
  - intros _. unfold post_register.
    destruct u as [p|]; cbn [upload_single]; by rewrite register_rejects.
  - destruct name as [| |s]; [done | done |]. cbn [absent_or_blank] in Hname.
    rewrite post_register_accepts by done. cbn [snd status]. lia.
Qed.

Lemma put_inventory_photo_refused (i : string) (u : option Upload) (upload_time rnd : N)
    (d : CacheDir) (r : Response) :
  (put_inventory_photo i u upload_time rnd d).2 = Responded r →
  (400 ≤ status r)%nat →
  inventory_json (put_inventory_photo i u upload_time rnd d).1 = inventory_json d.
Proof.
  destruct (findItem (loadInventory d) i) as [[k item]|] eqn:Hfind.
  - unfold put_inventory_photo.
    pose proof (findItem_upload i upload_time rnd u d) as Hup. rewrite Hfind in Hup.
    destruct (upload_single upload_time rnd u d) as [d1 file]. cbn [fst] in Hup.
    unfold put_photo. rewrite Hup. cbn [snd]. intros [= <-]. cbn [status]. lia.
  - rewrite put_inventory_photo_not_found by done. intros _ _. by destruct u.
Qed.

(** X7: apart from [POST /register], [PUT] and [DELETE /inventory/:id] and
    [PUT /inventory/:id/photo] no request changes the cache directory, and
    of these four a request that is answered with an error status leaves
    the document as it was. *)
Theorem only_four_routes_write (req : Request) (d : CacheDir) :
  (writes req = false → (express_app req d).1 = d)
  ∧ (∀ r, (express_app req d).2 = Some (Json (Responded r)) → (400 ≤ status r)%nat →
          inventory_json (express_app req d).1 = inventory_json d).
Proof.
  split; [apply app_no_write |]. intros r.
  destruct (writes req) eqn:Hw; [| by rewrite app_no_write].
  apply writes_cases in Hw as [[Hm Hp] | [(i & Hm & Hp) | [(i & Hm & Hp) | (i & Hm & Hp)]]].
  - rewrite app_post_register by done. cbn [fst snd]. intros [= <-].
    apply post_register_refused.
  - rewrite (app_put_item _ _ i) by done. cbn [fst snd]. intros [= <-].
    unfold update. destruct (findItem (loadInventory d) i) as [[k item]|];
      [cbn [snd status]; lia | done].
  - rewrite (app_delete_item _ _ i) by done. cbn [fst snd]. intros [= <-].
    unfold delete_item. destruct (findItem (loadInventory d) i) as [[k item]|];
      [cbn [snd status]; lia | done].
  - rewrite (app_put_photo _ _ i) by done. cbn [fst snd]. intros [= H].
    by apply put_inventory_photo_refused.
Qed.

(** X8: a request is answered 405 [Method not allowed] exactly when its
    path is one of the five guarded ones and its method is neither taken by
    a route of that path nor let through by the guard; such a request
    changes nothing, and no upload is stored for it.  [HEAD] goes where
    [GET] goes.  [OPTIONS /inventory] gets past its guard and ends at the
    last handler, with 404 [Not found]. *)
Theorem method_not_allowed (req : Request) (d : CacheDir) :
  ((express_app req d).2
   = Some (Json (Responded (mkResponse 405 (ErrorJson "Method not allowed"))))
   ↔ method req ∉ passes (path req))
  ∧ (method req ∉ passes (path req) → (express_app req d).1 = d)
  ∧ (method req = OPTIONS → path req = InventoryPath →
     express_app req d
     = (d, Some (Json (Responded (mkResponse 404 (ErrorJson "Not found")))))).
Proof.
  split; [| split].
  - destruct (decide (method req ∈ passes (path req))) as [Hin | Hnotin].
    + split; [| done]. intros H. exfalso.
      destruct (writes req) eqn:Hw.
      * apply writes_cases in Hw
          as [[Hm Hp] | [(i & Hm & Hp) | [(i & Hm & Hp) | (i & Hm & Hp)]]].
        -- rewrite app_post_register in H by done. cbn [snd] in H.
           injection H as H. eapply post_register_status. by rewrite H.
        -- rewrite (app_put_item _ _ i) in H by done. cbn [snd] in H.
           injection H as H. eapply update_status. by rewrite H.
        -- rewrite (app_delete_item _ _ i) in H by done. cbn [snd] in H.
           injection H as H. eapply delete_item_status. by rewrite H.
        -- rewrite (app_put_photo _ _ i) in H by done. cbn [snd] in H.
           injection H as H. by eapply put_inventory_photo_status.
      * destruct req as [m p n de bi hp ph cu rd ch]. cbn [method path] in *.
        unfold writes in Hw. cbn [method path] in Hw.
        destruct m, p; try discriminate Hw;
          try (exfalso; revert Hin; cbn [passes]; clear; intros Hin;
               repeat (apply elem_of_cons in Hin as [Hin | Hin]; [discriminate |]);
               by apply elem_of_nil in Hin);
          try discriminate H.
        -- rewrite (app_get_item _ _ i) in H by (cbn; auto). cbn [snd] in H.
           injection H as H. apply (get_item_status i d). by rewrite H.
        -- rewrite (app_get_photo _ _ i) in H by (cbn; auto). cbn [snd] in H.
           injection H as H. apply (get_photo_status i d). by rewrite H.
        -- rewrite (app_get_item _ _ i) in H by (cbn; auto). cbn [snd] in H.
           injection H as H. apply (get_item_status i d). by rewrite H.
        -- rewrite (app_get_photo _ _ i) in H by (cbn; auto). cbn [snd] in H.
           injection H as H. apply (get_photo_status i d). by rewrite H.
    + split; [done |]. intros _.
      destruct req as [m p n de bi hp ph cu rd ch]. cbn [method path] in *.
      destruct m, p; try reflexivity; exfalso; apply Hnotin; cbn [passes];
        repeat (apply list_elem_of_here || apply list_elem_of_further).
  - intros Hnotin.
    destruct req as [m p n de bi hp ph cu rd ch]. cbn [method path] in *.
    destruct m, p; try reflexivity; exfalso; apply Hnotin; cbn [passes];
      repeat (apply list_elem_of_here || apply list_elem_of_further).
  - destruct req as [m p n de bi hp ph cu rd ch]. cbn. by intros -> ->.
Qed.

(** ** The document across the requests *)

Lemma saved_document (items : list Item) (d : CacheDir) :
  inventory_json (saveInventory items d)
  = Some (JSON.stringify (loadInventory (saveInventory items d))).
Proof. by rewrite load_save. Qed.

Lemma document_upload (now rnd : N) (u : option Upload) (d : CacheDir) :
  inventory_json (upload_single now rnd u d).1 = inventory_json d.
Proof. by destruct u. Qed.

Lemma post_register_document (name descr : jsval) (u : option Upload)
    (upload_time rnd now : N) (d : CacheDir) :
  let d' := (post_register name descr u upload_time rnd now d).1 in
  inventory_json d' = inventory_json d
  ∨ inventory_json d' = Some (JSON.stringify (loadInventory d')).
Proof.
  cbn zeta. destruct (absent_or_blank name) eqn:Hname.
  - left. unfold post_register.
    pose proof (document_upload upload_time rnd u d) as Hdoc.
    destruct (upload_single upload_time rnd u d) as [d1 file].
    by rewrite register_rejects.
  - right. destruct name as [| |s]; [done | done |].
    rewrite post_register_accepts by done. apply saved_document.
Qed.

Lemma update_document (i : string) (name descr : jsval) (d : CacheDir) :
  let d' := (update i name descr d).1 in
  inventory_json d' = inventory_json d
  ∨ inventory_json d' = Some (JSON.stringify (loadInventory d')).
Proof.
  cbn zeta. destruct (findItem (loadInventory d) i) as [[k item]|] eqn:Hfind.
  - right. destruct (update_directory i name descr d k item Hfind) as (item' & -> & _).
    apply saved_document.
  - left. unfold update. by rewrite Hfind.
Qed.

Lemma delete_item_document (i : string) (d : CacheDir) :
  let d' := (delete_item i d).1 in
  inventory_json d' = inventory_json d
  ∨ inventory_json d' = Some (JSON.stringify (loadInventory d')).
Proof.
  cbn zeta. destruct (findItem (loadInventory d) i) as [[k item]|] eqn:Hfind.
  - right. rewrite (delete_item_found i d k item Hfind). apply saved_document.
  - left. unfold delete_item. by rewrite Hfind.
Qed.

Lemma put_inventory_photo_document (i : string) (u : option Upload) (upload_time rnd : N)
    (d : CacheDir) :
  let d' := (put_inventory_photo i u upload_time rnd d).1 in
  inventory_json d' = inventory_json d
  ∨ inventory_json d' = Some (JSON.stringify (loadInventory d')).
Proof.
  cbn zeta. destruct (findItem (loadInventory d) i) as [[k item]|] eqn:Hfind.
  - right. unfold put_inventory_photo.
    pose proof (findItem_upload i upload_time rnd u d) as Hup. rewrite Hfind in Hup.
    destruct (upload_single upload_time rnd u d) as [d1 file]. cbn [fst] in Hup.
    unfold put_photo. rewrite Hup. apply saved_document.
  - left. rewrite put_inventory_photo_not_found by done. by destruct u.
Qed.

(** X9: whatever the request, afterwards the document is either the text
    it was or the serialization of the collection it now holds; so a
    document that was absent or readable is absent or readable after every
    request, and a document that could not be read can be read once a
    handler has saved. *)
Theorem requests_keep_document_readable (req : Request) (d : CacheDir) :
  let d' := (express_app req d).1 in
  (inventory_json d' = inventory_json d
   ∨ inventory_json d' = Some (JSON.stringify (loadInventory d')))
  ∧ (document_readable d → document_readable d').
Proof.
  cbn zeta.
  assert (inventory_json (express_app req d).1 = inventory_json d
          ∨ inventory_json (express_app req d).1
            = Some (JSON.stringify (loadInventory (express_app req d).1))) as H.
  { destruct (writes req) eqn:Hw; [| left; by rewrite app_no_write].
    apply writes_cases in Hw as [[Hm Hp] | [(i & Hm & Hp) | [(i & Hm & Hp) | (i & Hm & Hp)]]].
    - rewrite app_post_register by done. apply post_register_document.
    - rewrite (app_put_item _ _ i) by done. apply update_document.
    - rewrite (app_delete_item _ _ i) by done. apply delete_item_document.
    - rewrite (app_put_photo _ _ i) by done. apply put_inventory_photo_document. }
  split; [exact H |].
  unfold document_readable. destruct H as [-> | ->]; [done |].
  intros _. rewrite JSONFacts.parse_stringify. by eexists.
Qed.

(** ** Photo references across the requests *)

Lemma put_photo_no_file_keeps (i : string) (d : CacheDir) :
  (∀ k item, findItem (loadInventory d) i = Some (k, item) → photo_of item = None) →
  let d' := (put_photo i None d).1 in
  loadInventory d' = loadInventory d ∧ files d' = files d.
Proof.
  intros Hno. cbn zeta.
  destruct (findItem (loadInventory d) i) as [[k item]|] eqn:Hfind.
  - rewrite (put_photo_nothing_to_do i d k item) by eauto. cbn [fst].
    by rewrite load_save.
  - unfold put_photo. by rewrite Hfind.
Qed.

(** X10: where every photo reference resolves and no two items share a
    photo, this is still so after any request, provided multer stores the
    upload of the request, if it has one, under a name not yet in the
    directory, and the request is not a [PUT /inventory/:id/photo] without
    a file for an item that has a photo. *)
Theorem requests_keep_references (req : Request) (d : CacheDir) :
  match photo req with
  | Some p =>
      files d !! storage_filename (clock_at_upload req) (random_draw req) (extname p) = None
  | None => True
  end →
  (∀ i k item, method req = PUT → path req = ItemPhotoPath i → photo req = None →
     findItem (loadInventory d) i = Some (k, item) → photo_of item = None) →
  references_resolve d → photos_unshared d →
  let d' := (express_app req d).1 in
  references_resolve d' ∧ photos_unshared d'.
Proof.
  intros Hfree Hfile Hres Hun. cbn zeta.
  destruct (writes req) eqn:Hw; [| by rewrite app_no_write].
  apply writes_cases in Hw as [[Hm Hp] | [(i & Hm & Hp) | [(i & Hm & Hp) | (i & Hm & Hp)]]].
  - rewrite app_post_register by done. by apply register_keeps_references.
  - rewrite (app_put_item _ _ i) by done. by apply update_keeps_references.
  - rewrite (app_delete_item _ _ i) by done. by apply delete_keeps_references.
  - rewrite (app_put_photo _ _ i) by done. cbn [fst].
    destruct (photo req) as [p|] eqn:Hphoto.
    + by apply put_photo_keeps_references.
    + destruct (put_photo_no_file_keeps i d) as [Hload Hfiles]; [by eauto |].
      change (put_inventory_photo i None (clock_at_upload req) (random_draw req) d)
        with (put_photo i None d).
      unfold references_resolve, photos_unshared. by rewrite Hload, Hfiles.
Qed.

Lemma shelf_photos_unshared : photos_unshared Shelf.dir.
Proof.
  intros j1 j2 it1 it2 name H1 H2 Hn1 Hn2. rewrite load_shelf in H1, H2.
  destruct j1 as [|[|j1]], j2 as [|[|j2]]; simplify_eq/=; done.
Qed.

Lemma requests_keep_references_witness :
  let req :=
    mkRequest PUT (ItemPhotoPath "1700000000001") JUndefined JUndefined JUndefined false
              (Some (mkUpload ".png" "PNG")) 1700000000005 7 1700000000006 in
  files Shelf.dir !! storage_filename 1700000000005 7 ".png" = None
  ∧ references_resolve Shelf.dir
  ∧ photos_unshared Shelf.dir
  ∧ references_resolve (express_app req Shelf.dir).1.
Proof.
  cbn zeta.
  assert (files Shelf.dir !! storage_filename 1700000000005 7 ".png" = None) as Hfree
    by (vm_compute; reflexivity).
  split; [exact Hfree |]. split; [exact shelf_references_resolve |].
  split; [exact shelf_photos_unshared |].
  refine (proj1 (requests_keep_references
    (mkRequest PUT (ItemPhotoPath "1700000000001") JUndefined JUndefined JUndefined false
               (Some (mkUpload ".png" "PNG")) 1700000000005 7 1700000000006)
    Shelf.dir Hfree _ shelf_references_resolve shelf_photos_unshared)).
  intros i k item _ _ Hnone. discriminate Hnone.
Defined.

(** ** PUT /inventory/:id, continued *)

Lemma updated_id (name descr : jsval) (item : Item) : id (updated name descr item) = id item.
Proof. done. Qed.

(** The handler on an item it finds. *)
Lemma update_found (i : string) (name descr : jsval) (d : CacheDir) (k : nat) (item : Item) :
  findItem (loadInventory d) i = Some (k, item) →
  update i name descr d
  = (saveInventory (<[k := updated name descr item]> (loadInventory d)) d,
     mkResponse 200 (ItemJson (updated name descr item))).
Proof.
  intros Hfind. unfold update, updated. rewrite Hfind, name_given_blank.
  destruct item as [i0 n0 de0 f0 u0].
  destruct name as [| |s]; [| | destruct (blank s)]; by destruct descr.
Qed.

Lemma update_not_found (i : string) (name descr : jsval) (d : CacheDir) :
  findItem (loadInventory d) i = None →
  update i name descr d = (d, mkResponse 404 (ErrorJson "Item not found")).
Proof. intros Hfind. unfold update. by rewrite Hfind. Qed.

(** X11: [PUT /inventory/:id] changes neither the number of items nor any
    id nor any file, and leaves every item with another id exactly as it
    was, whatever the body and whether or not the id is known. *)
Theorem update_touches_one_item (i : string) (name descr : jsval) (d : CacheDir) :
  let d' := (update i name descr d).1 in
  length (loadInventory d') = length (loadInventory d)
  ∧ id <$> loadInventory d' = id <$> loadInventory d
  ∧ files d' = files d
  ∧ ∀ j it, loadInventory d !! j = Some it → id it ≠ i → loadInventory d' !! j = Some it.
Proof.
  cbn zeta. destruct (findItem (loadInventory d) i) as [[k item]|] eqn:Hfind.
  - rewrite (update_found i name descr d k item Hfind). cbn [fst].
    destruct (findItem_Some _ _ _ _ Hfind) as [Hk Hid].
    rewrite load_save. split; [apply length_insert |]. split.
    + rewrite list_fmap_insert, updated_id. apply list_insert_id.
      by rewrite list_lookup_fmap, Hk.
    + split; [done |]. intros j it Hj Hne.
      rewrite list_lookup_insert_ne; [done |]. intros <-. congruence.
  - rewrite update_not_found by done. by repeat split.
Qed.

(** X12: what [PUT /inventory/:id] answers is what [GET /inventory/:id]
    answers straight afterwards: the updated item with 200, or 404 when no
    item has the id. *)
Theorem update_then_get (i : string) (name descr : jsval) (d : CacheDir) :
  get_item i (update i name descr d).1 = (update i name descr d).2.
Proof.
  destruct (findItem (loadInventory d) i) as [[k item]|] eqn:Hfind.
  - rewrite (update_found i name descr d k item Hfind). cbn [fst snd].
    unfold get_item. rewrite load_save.
    destruct (findItem_Some _ _ _ _ Hfind) as [_ Hid].
    by rewrite (findItem_insert _ _ _ item (updated name descr item) Hfind Hid).
  - rewrite update_not_found by done. cbn [fst snd]. unfold get_item. by rewrite Hfind.
Qed.

Lemma updated_twice (name descr : jsval) (item : Item) :
  updated name descr (updated name descr item) = updated name descr item.
Proof.
  unfold updated. cbn.
  destruct name as [| |s]; [| | destruct (blank s) eqn:Hb; rewrite ?Hb];
    by destruct descr.
Qed.

(** X13: sending the same body to [PUT /inventory/:id] a second time changes
    nothing more: the directory and the answer are those of the first
    time. *)
Theorem update_idempotent (i : string) (name descr : jsval) (d : CacheDir) :
  update i name descr (update i name descr d).1 = update i name descr d.
Proof.
  destruct (findItem (loadInventory d) i) as [[k item]|] eqn:Hfind.
  - rewrite (update_found i name descr d k item Hfind). cbn [fst].
    assert (findItem (loadInventory
              (saveInventory (<[k := updated name descr item]> (loadInventory d)) d)) i
            = Some (k, updated name descr item)) as Hfind'.
    { rewrite load_save. destruct (findItem_Some _ _ _ _ Hfind) as [_ Hid].
      by apply (findItem_insert _ _ _ item). }
    rewrite (update_found i name descr _ k _ Hfind').
    by rewrite load_save, updated_twice, list_insert_insert_eq.
  - rewrite (update_not_found i name descr d Hfind). cbn [fst].
    by apply update_not_found.
Qed.

(** ** DELETE /inventory/:id, once more *)

Lemma delete_item_not_found (i : string) (d : CacheDir) :
  findItem (loadInventory d) i = None →
  delete_item i d = (d, mkResponse 404 (ErrorJson "Item not found")).
Proof. intros Hfind. unfold delete_item. by rewrite Hfind. Qed.

(** X14: [DELETE /inventory/:id] on a known id answers 200, takes exactly
    the first item with that id out of the collection, the others staying
    in their order, and removes the file its [photoFilename] names, if it
    names one, leaving every file of another name as it was; an item
    without a photo leaves the files untouched. *)
Theorem delete_removes_item_and_photo (i : string) (d : CacheDir) (k : nat) (item : Item) :
  findItem (loadInventory d) i = Some (k, item) →
  let res := delete_item i d in
  res.2 = mkResponse 200 (DeletedJson "Deleted" i)
  ∧ loadInventory res.1 = delete k (loadInventory d)
  ∧ S (length (loadInventory res.1)) = length (loadInventory d)
  ∧ (∀ it, it ∈ loadInventory d → id it ≠ i → it ∈ loadInventory res.1)
  ∧ match photo_of item with
    | Some name =>
        files res.1 !! name = None
        ∧ ∀ other, other ≠ name → files res.1 !! other = files d !! other
    | None => files res.1 = files d
    end.
Proof.
  intros Hfind res. subst res. rewrite (delete_item_found i d k item Hfind).
  destruct (findItem_Some _ _ _ _ Hfind) as [Hk Hid].
  cbn [fst snd]. rewrite load_save.
  split; [done |]. split; [done |]. split.
  { rewrite length_delete by (by eexists).
    apply lookup_lt_Some in Hk. lia. }
  split.
  { intros it Hin Hne. apply list_elem_of_lookup in Hin as [j Hj].
    assert (j ≠ k) as Hjk by (intros ->; congruence).
    destruct (decide (j < k)) as [Hlt | Hge].
    - apply (list_elem_of_lookup_2 _ j). by rewrite list_lookup_delete_lt.
    - apply (list_elem_of_lookup_2 _ (j - 1)).
      rewrite list_lookup_delete_ge by lia. by replace (S (j - 1)) with j by lia. }
  destruct (photo_of item) as [name|]; cbn; [| done].
  split; [apply lookup_delete_eq |]. intros other Hne. by apply lookup_delete_ne.
Qed.

Lemma delete_removes_item_and_photo_witness :
  findItem (loadInventory Shelf.dir) "1700000000001" = Some (1, Shelf.drill)
  ∧ loadInventory (delete_item "1700000000001" Shelf.dir).1 = delete 1 (loadInventory Shelf.dir)
  ∧ (delete_item "1700000000001" Shelf.dir).2
    = mkResponse 200 (DeletedJson "Deleted" "1700000000001").
Proof.
  assert (findItem (loadInventory Shelf.dir) "1700000000001" = Some (1, Shelf.drill)) as H
    by (vm_compute; reflexivity).
  split; [exact H |].
  destruct (delete_removes_item_and_photo "1700000000001" Shelf.dir 1 Shelf.drill H)
    as (Hres & Hload & _).
  split; [exact Hload | exact Hres].
Defined.

(** X15: where ids are pairwise distinct, [DELETE /inventory/:id] leaves no
    item with that id, so that [GET /inventory/:id] answers 404 afterwards,
    and the ids that stay are still pairwise distinct. *)
Theorem delete_then_get (i : string) (d : CacheDir) :
  ids_distinct d →
  let d' := (delete_item i d).1 in
  findItem (loadInventory d') i = None
  ∧ get_item i d' = mkResponse 404 (ErrorJson "Item not found")
  ∧ ids_distinct d'.
Proof.
  intros Hnodup. cbn zeta.
  assert (∀ d', findItem (loadInventory d') i = None →
            get_item i d' = mkResponse 404 (ErrorJson "Item not found")) as Hget.
  { intros d' H. unfold get_item. by rewrite H. }
  destruct (findItem (loadInventory d) i) as [[k item]|] eqn:Hfind.
  - rewrite (delete_item_found i d k item Hfind). cbn [fst].
    destruct (findItem_Some _ _ _ _ Hfind) as [Hk Hid].
    assert (findItem (loadInventory (saveInventory (delete k (loadInventory d))
              (match photo_of item with
               | Some name => unlink_if_exists name d
               | None => d
               end))) i = None) as Hgone.
    { rewrite load_save. apply findItem_None. intros it Hin Hit.
      apply list_elem_of_lookup in Hin as [j Hj].
      apply lookup_delete_origin in Hj as (j' & Hj' & Hne & _).
      apply Hne. apply (NoDup_lookup _ j' k i Hnodup).
      - by rewrite list_lookup_fmap, Hj'; cbn; rewrite Hit.
      - by rewrite list_lookup_fmap, Hk; cbn; rewrite Hid. }
    split; [exact Hgone |]. split; [by apply Hget |].
    unfold ids_distinct. rewrite load_save, list_fmap_delete.
    eapply sublist_NoDup; [exact Hnodup | apply sublist_delete].
  - rewrite delete_item_not_found by done. cbn [fst]. auto.
Qed.

Lemma shelf_ids_distinct : ids_distinct Shelf.dir.
Proof.
  unfold ids_distinct. rewrite load_shelf. apply (bool_decide_unpack _).
  vm_compute. exact I.
Qed.

Lemma delete_then_get_witness :
  ids_distinct Shelf.dir
  ∧ get_item "1700000000001" (delete_item "1700000000001" Shelf.dir).1
    = mkResponse 404 (ErrorJson "Item not found").
Proof.
  split; [exact shelf_ids_distinct |].
  exact (proj1 (proj2 (delete_then_get "1700000000001" Shelf.dir shelf_ids_distinct))).
Defined.

(** ** PUT /inventory/:id/photo, continued *)

(** X16: [PUT /inventory/:id/photo] with a file, on a known id whose item
    does not already refer to the name the upload is stored under, answers
    200 with the item now referring to the new file and to its photo URL;
    the new file is in the directory, the file the item referred to before
    is gone, the other items are as they were, and
    [GET /inventory/:id/photo] answers with the new bytes. *)
Theorem put_photo_replaces (i : string) (p : Upload) (upload_time rnd : N) (d : CacheDir)
    (k : nat) (item : Item) :
  findItem (loadInventory d) i = Some (k, item) →
  photo_of item ≠ Some (storage_filename upload_time rnd (extname p)) →
  let stored := storage_filename upload_time rnd (extname p) in
  let item' :=
    mkItem (id item) (inventory_name item) (description item)
           (Some stored) (Some (photo_url i)) in
  let res := put_inventory_photo i (Some p) upload_time rnd d in
  res.2 = Responded (mkResponse 200 (ItemJson item'))
  ∧ loadInventory res.1 = <[k := item']> (loadInventory d)
  ∧ files res.1 !! stored = Some (bytes p)
  ∧ (∀ old, photo_of item = Some old → files res.1 !! old = None)
  ∧ get_photo i res.1 = mkResponse 200 (FileBody "image/jpeg" (bytes p)).
Proof.
  intros Hfind Hother stored item' res. subst res.
  unfold put_inventory_photo. cbn [upload_single]. fold stored.
  set (d1 := mkCacheDir (inventory_json d) (<[stored := bytes p]> (files d))).
  rewrite (put_photo_found i (mkFile stored) d1 k item) by exact Hfind.
  change (loadInventory d1) with (loadInventory d). cbn [filename fst snd]. fold item'.
  rewrite load_save.
  destruct (findItem_Some _ _ _ _ Hfind) as [Hk Hid].
  assert (files (saveInventory (<[k := item']> (loadInventory d))
                   (match photo_of item with
                    | Some name => unlink_if_exists name d1
                    | None => d1
                    end)) !! stored = Some (bytes p)) as Hstored.
  { destruct (photo_of item) as [old|]; cbn.
    - rewrite lookup_delete_ne by (intros E; apply Hother; by rewrite E).
      apply lookup_insert_eq.
    - apply lookup_insert_eq. }
  split; [done |]. split; [done |]. split; [exact Hstored |]. split.
  - intros old ->. cbn. apply lookup_delete_eq.
  - unfold get_photo. rewrite load_save.
    rewrite (findItem_insert _ _ _ item item' Hfind Hid). cbn [mbind option_bind snd].
    destruct (storage_filename_head upload_time rnd (extname p)) as (c & rest & E & _).
    fold stored in E.
    assert (photo_of item' = Some stored) as -> by (unfold photo_of, item'; cbn; by rewrite E).
    by rewrite Hstored.
Qed.

Lemma put_photo_replaces_witness :
  findItem (loadInventory Shelf.dir) "1700000000001" = Some (1, Shelf.drill)
  ∧ photo_of Shelf.drill ≠ Some (storage_filename 1700000000005 7 ".png")
  ∧ get_photo "1700000000001"
      (put_inventory_photo "1700000000001" (Some (mkUpload ".png" "PNG"))
         1700000000005 7 Shelf.dir).1
    = mkResponse 200 (FileBody "image/jpeg" "PNG").
Proof.
  assert (findItem (loadInventory Shelf.dir) "1700000000001" = Some (1, Shelf.drill)) as H
    by (vm_compute; reflexivity).
  assert (photo_of Shelf.drill ≠ Some (storage_filename 1700000000005 7 ".png")) as Hne
    by (vm_compute; discriminate).
  split; [exact H |]. split; [exact Hne |].
  destruct (put_photo_replaces "1700000000001" (mkUpload ".png" "PNG") 1700000000005 7
              Shelf.dir 1 Shelf.drill H Hne) as (_ & _ & _ & _ & Hget).
  exact Hget.
Defined.

(** ** GET /inventory, GET /inventory/:id and POST /search *)

(** X17: [GET /inventory] lists the ids of the persisted items in their
    order, and every entry it lists can be fetched: [GET /inventory/:id]
    under the id of an entry answers 200 with an item of that id. *)
Theorem listed_items_can_be_fetched (d : CacheDir) (e : PublicItem) :
  e ∈ list_inventory d →
  public_id <$> list_inventory d = id <$> loadInventory d
  ∧ ∃ item, get_item (public_id e) d = mkResponse 200 (ItemJson item)
            ∧ id item = public_id e.
Proof.
  intros He. unfold list_inventory in *. split.
  { rewrite <- list_fmap_compose. done. }
  apply list_elem_of_fmap in He as (it & -> & Hin). cbn [public public_id].
  unfold get_item.
  destruct (findItem (loadInventory d) (id it)) as [[k item]|] eqn:Hfind.
  - exists item. split; [done |]. by destruct (findItem_Some _ _ _ _ Hfind).
  - exfalso. by apply (proj1 (findItem_None _ _) Hfind it).
Qed.

Lemma listed_items_can_be_fetched_witness :
  public Shelf.drill ∈ list_inventory Shelf.dir
  ∧ ∃ item, get_item "1700000000001" Shelf.dir = mkResponse 200 (ItemJson item)
            ∧ id item = "1700000000001".
Proof.
  assert (public Shelf.drill ∈ list_inventory Shelf.dir) as H.
  { unfold list_inventory. rewrite load_shelf. cbn.
    apply list_elem_of_further, list_elem_of_here. }
  split; [exact H |].
  exact (proj2 (listed_items_can_be_fetched Shelf.dir (public Shelf.drill) H)).
Defined.

(** X18: [POST /search] and [GET /inventory/:id] agree on whether an item
    exists: for a string id the search answers with the status the fetch
    answers with, for any other id with 404; a 404 carries the text
    [Item not found], and nothing but 200 and 404 is ever answered. *)
Theorem search_agrees_with_get (i : jsval) (has_photo : bool) (d : CacheDir) :
  page_status (search i has_photo d)
  = match i with
    | JString s => status (get_item s d)
    | _ => 404
    end
  ∧ (page_status (search i has_photo d) = 200
     ∨ search i has_photo d = mkPage 404 "Item not found").
Proof.
  unfold search, get_item.
  destruct i as [| |s]; [by split; [| right] | by split; [| right] |].
  destruct (findItem (loadInventory d) s) as [[k item]|]; cbn; split; auto.
Qed.

(** ** What [JSON.parse] accepts is a JSON text *)

Module JSONGrammarFacts.
Import JSON JSONGrammar.

Lemma ws_app (a b : string) : ws a = true → ws b = true → ws (a +:+ b) = true.
Proof.
  induction a as [|c a IH]; simpl; [done |].
  intros Ha Hb. apply andb_prop in Ha as [Hc Ha]. by rewrite Hc, IH.
Qed.

Lemma hex4_is_hex (h1 h2 h3 h4 c : ascii) :
  hex4 h1 h2 h3 h4 = Some c →
  is_hex h1 && is_hex h2 && is_hex h3 && is_hex h4 = true.
Proof.
  unfold hex4, is_hex.
  by destruct (hex_value h1), (hex_value h2), (hex_value h3), (hex_value h4).
Qed.

Ltac escape_case IH r' E :=
  let body := fresh "body" in
  let rest := fresh "rest" in
  let str := fresh "str" in
  let ts' := fresh "ts'" in
  let Hs := fresh "Hs" in
  let Hbody := fresh "Hbody" in
  let Hts := fresh "Hts" in
  let Hrest := fresh "Hrest" in
  match goal with
  | H : lex (Some _) r' = Some _ |- _ =>
      apply IH in H as (body & rest & str & ts' & Hs & Hbody & Hts & Hrest);
      [| simpl in *; lia]
  end;
  match goal with
  | e : ascii |- _ =>
      exists (String "\" (String e body)), rest, str, ts';
      split; [by rewrite Hs |];
      split; [cbn [characters]; unfold simple_escape; rewrite ?E, ?orb_true_r; done |];
      done
  end.

(** Inside a string literal: the lexer reads on to the closing quote, over
    characters the grammar allows. *)
Lemma lex_string_inv (n : nat) :
  ∀ (s acc : string) (ts : list token),
    String.length s < n →
    lex (Some acc) s = Some ts →
    ∃ body rest str ts',
      s = body +:+ String dquote rest
      ∧ characters body = true
      ∧ ts = Str str :: ts'
      ∧ lex None rest = Some ts'.
Proof.
  induction n as [|n IH]; intros s acc ts Hlen H; [lia |].
  destruct s as [|c r]; [discriminate |].
  cbn [lex] in H.
  destruct (Ascii.eqb c dquote) eqn:Hq.
  { apply Ascii.eqb_eq in Hq as ->.
    destruct (lex None r) as [ts'|] eqn:E; [| discriminate]. cbn in H.
    injection H as <-. by exists "", r, acc, ts'. }
  destruct (Ascii.eqb c "\") eqn:Hb.
  - apply Ascii.eqb_eq in Hb as ->.
    destruct r as [|e r']; [discriminate |].
    destruct (Ascii.eqb e dquote) eqn:E1; [escape_case IH r' E1 |].
    destruct (Ascii.eqb e "\") eqn:E2; [escape_case IH r' E2 |].
    destruct (Ascii.eqb e "/") eqn:E3; [escape_case IH r' E3 |].
    destruct (Ascii.eqb e "b") eqn:E4; [escape_case IH r' E4 |].
    destruct (Ascii.eqb e "f") eqn:E5; [escape_case IH r' E5 |].
    destruct (Ascii.eqb e "n") eqn:E6; [escape_case IH r' E6 |].
    destruct (Ascii.eqb e "r") eqn:E7; [escape_case IH r' E7 |].
    destruct (Ascii.eqb e "t") eqn:E8; [escape_case IH r' E8 |].
    destruct (Ascii.eqb e "u") eqn:E9; [| discriminate].
    destruct r' as [|h1 [|h2 [|h3 [|h4 r'']]]]; try discriminate.
    destruct (hex4 h1 h2 h3 h4) as [c'|] eqn:Hhex; [| discriminate].
    apply IH in H as (body & rest & str & ts' & Hs & Hbody & Hts & Hrest);
      [| simpl in *; lia].
    exists (String "\" (String e (String h1 (String h2 (String h3 (String h4 body)))))),
      rest, str, ts'.
    split; [by rewrite Hs |]. split; [| done].
    cbn [characters]. unfold simple_escape.
    rewrite E1, E2, E3, E4, E5, E6, E7, E8, E9. cbn.
    by rewrite (hex4_is_hex _ _ _ _ _ Hhex).
  - destruct (N_of_ascii c <? 32)%N eqn:Hlow; [discriminate |].
    apply IH in H as (body & rest & str & ts' & Hs & Hbody & Hts & Hrest);
      [| simpl in *; lia].
    exists (String c body), rest, str, ts'.
    split; [by rewrite Hs |]. split; [| done].
    cbn [characters]. by rewrite Hb, Hq, Hlow.
Qed.

Lemma ull_inv (r : string) (k : string → option (list token)) (ts : list token) :
  match r with
  | String "u" (String "l" (String "l" r')) => k r'
  | _ => None
  end = Some ts →
  ∃ r', r = "ull" +:+ r' ∧ k r' = Some ts.
Proof.
  destruct r as [|c1 r]; [done |].
  destruct c1 as [[] [] [] [] [] [] [] []]; try done.
  destruct r as [|c2 r]; [done |].
  destruct c2 as [[] [] [] [] [] [] [] []]; try done.
  destruct r as [|c3 r]; [done |].
  destruct c3 as [[] [] [] [] [] [] [] []]; try done.
  intros H. by exists r.
Qed.

(** Between tokens: the lexer skips white space and reads one token. *)
Lemma lex_inv (s : string) :
  ∀ ts, lex None s = Some ts →
    match ts with
    | [] => ws s = true
    | t :: ts' =>
        ∃ w text rest,
          s = w +:+ text +:+ rest ∧ ws w = true ∧ token_text t text
          ∧ lex None rest = Some ts'
    end.
Proof.
  induction s as [|c r IH]; intros ts H.
  { cbn in H. by injection H as <-. }
  cbn [lex] in H.
  destruct (is_json_space c) eqn:Hsp.
  { specialize (IH ts H). destruct ts as [|t ts'].
    - cbn [ws]. by rewrite Hsp, IH.
    - destruct IH as (w & text & rest & -> & Hw & Ht & Hrest).
      exists (String c w), text, rest. cbn [ws]. by rewrite Hsp, Hw. }
  assert (∀ (t : token) (p : ascii),
            c = p → token_text t (String p "") →
            cons t <$> lex None r = Some ts →
            match ts with
            | [] => ws (String c r) = true
            | t :: ts' =>
                ∃ w text rest,
                  String c r = w +:+ text +:+ rest ∧ ws w = true ∧ token_text t text
                  ∧ lex None rest = Some ts'
            end) as Hpunct.
  { intros t p -> Ht Hlex. destruct (lex None r) as [ts'|] eqn:E; [| discriminate].
    cbn in Hlex. injection Hlex as <-. by exists "", (String p ""), r. }
  destruct (Ascii.eqb c "[") eqn:E1;
    [apply Ascii.eqb_eq in E1; by apply (Hpunct LBracket "["%char) |].
  destruct (Ascii.eqb c "]") eqn:E2;
    [apply Ascii.eqb_eq in E2; by apply (Hpunct RBracket "]"%char) |].
  destruct (Ascii.eqb c "{") eqn:E3;
    [apply Ascii.eqb_eq in E3; by apply (Hpunct LBrace "{"%char) |].
  destruct (Ascii.eqb c "}") eqn:E4;
    [apply Ascii.eqb_eq in E4; by apply (Hpunct RBrace "}"%char) |].
  destruct (Ascii.eqb c ":") eqn:E5;
    [apply Ascii.eqb_eq in E5; by apply (Hpunct Colon ":"%char) |].
  destruct (Ascii.eqb c ",") eqn:E6;
    [apply Ascii.eqb_eq in E6; by apply (Hpunct Comma ","%char) |].
  clear Hpunct.
  destruct (Ascii.eqb c dquote) eqn:E7.
  { apply Ascii.eqb_eq in E7 as ->.
    apply (lex_string_inv (S (String.length r))) in H
      as (body & rest & str & ts' & -> & Hbody & -> & Hrest); [| lia].
    exists "", (String dquote (body +:+ String dquote "")), rest.
    split; [| split; [done | split; [by exists body | done]]].
    cbn. by rewrite string_app_assoc. }
  destruct (Ascii.eqb c "n") eqn:E8; [| discriminate].
  apply Ascii.eqb_eq in E8 as ->.
  apply ull_inv in H as (r' & -> & H).
  destruct (lex None r') as [ts'|] eqn:E; [| discriminate].
  cbn in H. injection H as <-. by exists "", "null", r'.
Qed.

(** One token off the front of a text. *)
Lemma lex_cons (s : string) (t : token) (ts : list token) :
  lex None s = Some (t :: ts) →
  ∃ w text rest,
    s = w +:+ text +:+ rest ∧ ws w = true ∧ token_text t text ∧ lex None rest = Some ts.
Proof. intros H. exact (lex_inv s _ H). Qed.

Lemma lex_nil (s : string) : lex None s = Some [] → ws s = true.
Proof. intros H. exact (lex_inv s _ H). Qed.

Lemma value_of_text (t : token) (v : option string) (text : string) :
  value_of t = Some v → token_text t text → value text.
Proof.
  destruct t; try discriminate; intros _ Ht; cbn in Ht.
  - subst. constructor.
  - by apply value_string.
Qed.

Ltac same_text := subst; rewrite ?string_app_assoc; simpl; rewrite ?string_app_assoc; reflexivity.

(** The tokens [parse_objects] accepts come from the members of an object,
    its closing brace and what may follow it. *)
Lemma objects_text (n : nat) :
  ∀ (ts : list token) (acc : list Item) (cur : list member) (items : list Item) (s : string),
    length ts < n →
    parse_objects acc cur ts = Some items →
    lex None s = Some ts →
    ∃ ms tail, s = ms +:+ "}" +:+ tail ∧ members ms ∧ closes tail.
Proof.
  induction n as [|n IH]; intros ts acc cur items s Hlen Hparse Hlex; [lia |].
  destruct ts as [|[| | | | | | |k] [|[] [|t2 ts1]]]; try discriminate.
  cbn [parse_objects] in Hparse.
  destruct (value_of t2) as [v|] eqn:Hv; [| discriminate].
  apply lex_cons in Hlex as (w1 & kq & r1 & -> & Hw1 & Hkq & Hlex). cbn in Hkq.
  apply lex_cons in Hlex as (w2 & colon & r2 & -> & Hw2 & -> & Hlex).
  apply lex_cons in Hlex as (w3 & vt & r3 & -> & Hw3 & Hvt & Hlex).
  pose proof (value_of_text t2 v vt Hv Hvt) as Hvalue.
  destruct ts1 as [|[] ts2]; try discriminate.
  - (* a closing brace *)
    apply lex_cons in Hlex as (w4 & brace & r4 & -> & Hw4 & -> & Hlex).
    exists (w1 +:+ kq +:+ w2 +:+ ":" +:+ w3 +:+ vt +:+ w4), r4.
    split; [same_text |]. split; [by constructor |].
    destruct (item_of_members (cur ++ [(k, v)])) as [it|]; [| discriminate].
    destruct ts2 as [|[] [|t4 ts3]]; try discriminate.
    + (* the closing bracket *)
      apply lex_cons in Hlex as (w5 & bracket & r5 & -> & Hw5 & -> & Hlex).
      apply lex_nil in Hlex.
      exists w5, r5. split; [done |]. split; [done | by left].
    + (* a comma and the next object *)
      destruct t4; try discriminate.
      apply lex_cons in Hlex as (w5 & comma & r5 & -> & Hw5 & -> & Hlex).
      apply lex_cons in Hlex as (w6 & brace & r6 & -> & Hw6 & -> & Hlex).
      apply (IH ts3 _ _ _ r6) in Hparse as (ms & tail & -> & Hms & Hclose);
        [| simpl in Hlen; lia | done].
      destruct Hclose as (rest & w' & Hw' & -> & Hrest).
      pose proof (value_object ms Hms) as Hobj.
      destruct Hrest as [Hrest | (w & es & Hw & Hes & ->)].
      * exists (w5 +:+ "," +:+ w6 +:+ ("{" +:+ ms +:+ "}") +:+ rest), w'.
        split; [done |]. split; [same_text |]. right.
        exists w5, (w6 +:+ ("{" +:+ ms +:+ "}") +:+ rest).
        split; [done |]. split; [by constructor | done].
      * exists (w5 +:+ "," +:+ w6 +:+ ("{" +:+ ms +:+ "}") +:+ w +:+ "," +:+ es), w'.
        split; [done |]. split; [same_text |]. right.
        exists w5, (w6 +:+ ("{" +:+ ms +:+ "}") +:+ w +:+ "," +:+ es).
        split; [done |]. split; [by constructor | done].
  - (* a comma and the next member *)
    apply lex_cons in Hlex as (w4 & comma & r4 & -> & Hw4 & -> & Hlex).
    apply (IH ts2 _ _ _ r4) in Hparse as (ms & tail & -> & Hms & Hclose);
      [| simpl in Hlen; lia | done].
    exists (w1 +:+ kq +:+ w2 +:+ ":" +:+ w3 +:+ vt +:+ w4 +:+ "," +:+ ms), tail.
    split; [same_text |]. split; [by constructor | done].
Qed.

(** Every text [JSON.parse] of the model reads is a JSON text. *)
Lemma parse_text (s : string) (items : list Item) : parse s = Some items → text s.
Proof.
  unfold parse. destruct (lex None s) as [ts|] eqn:Hlex; [| discriminate].
  cbn. intros Hparse.
  destruct ts as [|[] [|[] ts']]; try discriminate.
  - (* the empty array *)
    destruct ts' as [|t ts']; [| discriminate].
    apply lex_cons in Hlex as (w1 & bracket & r1 & -> & Hw1 & -> & Hlex).
    apply lex_cons in Hlex as (w2 & bracket & r2 & -> & Hw2 & -> & Hlex).
    apply lex_nil in Hlex.
    exists w1, ("[" +:+ w2 +:+ "]"), r2.
    split; [done |]. split; [by constructor |]. split; [done | same_text].
  - (* an opening brace: objects *)
    apply lex_cons in Hlex as (w1 & bracket & r1 & -> & Hw1 & -> & Hlex).
    apply lex_cons in Hlex as (w2 & brace & r2 & -> & Hw2 & -> & Hlex).
    cbn [parse_tokens] in Hparse.
    apply (objects_text (S (length ts')) ts' _ _ _ r2) in Hparse
      as (ms & tail & -> & Hms & Hclose); [| lia | done].
    destruct Hclose as (rest & w' & Hw' & -> & Hrest).
    pose proof (value_object ms Hms) as Hobj.
    destruct Hrest as [Hrest | (w & es & Hw & Hes & ->)].
    + exists w1, ("[" +:+ (w2 +:+ ("{" +:+ ms +:+ "}") +:+ rest) +:+ "]"), w'.
      split; [done |]. split; [by do 2 constructor |]. split; [done | same_text].
    + exists w1, ("[" +:+ (w2 +:+ ("{" +:+ ms +:+ "}") +:+ w +:+ "," +:+ es) +:+ "]"), w'.
      split; [done |]. split; [by do 2 constructor |]. split; [done | same_text].
Qed.

(** A value is at least one code unit long. *)
Lemma value_not_empty (s : string) : value s → s ≠ "".
Proof.
  destruct 1 as [| | |n Hn|s Hs| | | |]; try done.
  - destruct Hn as (i & f & e & (sign & ds & _ & [Hds _] & _ & ->) & _ & _ & ->).
    destruct sign; [| done]. by destruct ds.
  - by destruct Hs as (body & _ & ->).
Qed.

(** The empty text and a text of white space are not JSON. *)
Lemma ws_not_text (s : string) : ws s = true → ¬ text s.
Proof.
  intros Hs (w1 & v & w2 & Hw1 & Hv & Hw2 & ->).
  assert (∀ a b, ws (a +:+ b) = true → ws b = true) as Htail.
  { intros a b. induction a as [|c a IH]; simpl; [done |].
    intros H. apply andb_prop in H as [_ H]. by apply IH. }
  assert (∀ a b, ws (a +:+ b) = true → ws a = true) as Hhead.
  { intros a b. induction a as [|c a IH]; simpl; [done |].
    intros H. apply andb_prop in H as [Hc H]. by rewrite Hc, IH. }
  apply Htail, Hhead in Hs.
  destruct Hv as [| | |n Hn|s Hs'|w|es|w|ms]; try discriminate.
  - destruct Hn as (i & f & e & (sign & ds & Hsign & [Hne Hds] & _ & ->) & _ & _ & ->).
    destruct Hsign as [-> | ->]; [| discriminate].
    destruct ds as [|c ds]; [done |]. cbn in Hs, Hds.
    apply andb_prop in Hs as [Hc _]. apply andb_prop in Hds as [Hd _].
    by destruct c as [[] [] [] [] [] [] [] []].
  - by destruct Hs' as (body & _ & ->).
Qed.
Lemma last_solid_app (a b : string) :
  last_solid (a +:+ b)
  = match last_solid b with Some x => Some x | None => last_solid a end.
Proof.
  induction a as [|c a IH]; simpl; [by destruct (last_solid b) |].
  rewrite IH. by destruct (last_solid b).
Qed.

Lemma ws_last_solid (w : string) : ws w = true → last_solid w = None.
Proof.
  induction w as [|c w IH]; simpl; [done |].
  intros H. apply andb_prop in H as [Hc Hw]. by rewrite IH, Hc.
Qed.

Lemma digits_last_solid (ds : string) :
  digits ds → ∃ c, last_solid ds = Some c ∧ closer c = true.
Proof.
  intros [Hne Hall]. induction ds as [|c ds IH]; [done |].
  simpl in Hall. apply andb_prop in Hall as [Hc Hall]. simpl.
  destruct ds as [|c' ds].
  - exists c. simpl. split; [| unfold closer; by rewrite Hc].
    unfold is_digit in Hc. unfold is_json_space. cbn zeta in *.
    apply andb_prop in Hc as [H1 H2]. apply N.leb_le in H1.
    destruct (N.eqb_spec (N_of_ascii c) 32) as [E|_]; [lia |].
    destruct (N.eqb_spec (N_of_ascii c) 9) as [E|_]; [lia |].
    destruct (N.eqb_spec (N_of_ascii c) 10) as [E|_]; [lia |].
    destruct (N.eqb_spec (N_of_ascii c) 13) as [E|_]; [lia |].
    reflexivity.
  - destruct IH as (x & -> & Hx); [done | done |]. by exists x.
Qed.

(** A value ends with a closer. *)
Lemma value_last_solid (v : string) :
  value v → ∃ c, last_solid v = Some c ∧ closer c = true.
Proof.
  destruct 1 as [| | |n Hn|s Hs|w Hw|es Hes|w Hw|ms Hms];
    try (eexists; split;
           [simpl; reflexivity || (rewrite !last_solid_app; reflexivity) | reflexivity]).
  - destruct Hn as (i & f & e & (sign & ds & _ & Hds & _ & ->) & Hf & He & ->).
    destruct He as [-> | (x & sg & eds & _ & _ & Heds & ->)].
    + destruct Hf as [-> | (fds & Hfds & ->)].
      * destruct (digits_last_solid ds Hds) as (c & Hc & Hcl).
        exists c. split; [| done]. by rewrite !last_solid_app, Hc.
      * destruct (digits_last_solid fds Hfds) as (c & Hc & Hcl).
        exists c. split; [| done]. by rewrite !last_solid_app, Hc.
    + destruct (digits_last_solid eds Heds) as (c & Hc & Hcl).
      exists c. split; [| done]. by rewrite !last_solid_app, Hc.
  - destruct Hs as (body & _ & ->). exists dquote. split; [| reflexivity].
    change (String dquote (body +:+ String dquote ""))
      with (String dquote "" +:+ (body +:+ String dquote "")).
    by rewrite !last_solid_app.
Qed.

(** A text whose last code unit other than white space is not a closer is
    no JSON text. *)
Lemma last_solid_not_text (s : string) (c : ascii) :
  last_solid s = Some c → closer c = false → ¬ text s.
Proof.
  intros Hs Hc (w1 & v & w2 & _ & Hv & Hw2 & ->).
  destruct (value_last_solid v Hv) as (x & Hx & Hcl).
  rewrite !last_solid_app, (ws_last_solid w2 Hw2), Hx in Hs.
  injection Hs as ->. congruence.
Qed.

End JSONGrammarFacts.

(** ** A document that is not JSON *)

Lemma load_not_json (d : CacheDir) (data : string) :
  inventory_json d = Some data → ¬ JSONGrammar.text data → loadInventory d = [].
Proof.
  intros Hdoc Hnot. unfold loadInventory. rewrite Hdoc.
  destruct (JSON.parse data) as [items|] eqn:Hparse; [| done].
  destruct Hnot. by apply (JSONGrammarFacts.parse_text data items).
Qed.

(** C2, amended: [loadInventory] returns the empty collection both when the
    document is absent and when it is there but is not a JSON text, so that
    [JSON.parse] throws; nothing is reported, and a registration that
    follows is accepted as on an empty catalog, its save replacing whatever
    the document held. *)
Theorem load_fails_open (d : CacheDir) (s : string) (descr : jsval)
    (file : option File) (now : N) :
  inventory_json d = None
  ∨ (∃ data, inventory_json d = Some data ∧ ¬ JSONGrammar.text data) →
  blank s = false →
  loadInventory d = []
  ∧ let newItem :=
      mkItem (pretty now) s (Some (description_or_empty descr)) (filename <$> file)
             (match file with Some _ => Some (photo_url (pretty now)) | None => None end) in
    register (JString s) descr file now d
    = (saveInventory [newItem] d, mkResponse 201 (ItemJson newItem)).
Proof.
  intros Hdoc Hs.
  assert (loadInventory d = []) as Hload.
  { destruct Hdoc as [H | (data & H & Hnot)];
      [by apply load_absent | by apply (load_not_json d data)]. }
  split; [done |]. cbn zeta.
  rewrite register_accepts by done. by rewrite Hload.
Qed.

(** The document of [Shelf.cut], cut short inside a property name. *)
Lemma load_fails_open_witness :
  (inventory_json Shelf.cut = None
   ∨ (∃ data, inventory_json Shelf.cut = Some data ∧ ¬ JSONGrammar.text data))
  ∧ blank "Saw" = false
  ∧ loadInventory Shelf.cut = [].
Proof.
  assert (inventory_json Shelf.cut = None
          ∨ (∃ data, inventory_json Shelf.cut = Some data ∧ ¬ JSONGrammar.text data)) as H.
  { right. eexists. split; [reflexivity |].
    apply (JSONGrammarFacts.last_solid_not_text _ "n"); vm_compute; reflexivity. }
  split; [exact H |]. split; [reflexivity |].
  exact (proj1 (load_fails_open Shelf.cut "Saw" JUndefined None 1700000000002 H eq_refl)).
Defined.
